(** * icx: shallow embedding of the [scan] and [status] commands

    The two commands of the repository are embedded as executable Rocq
    functions:

    - [txscan] follows [src/icx/txscan.py]: [dict_get], the column table
      [TX_COLUMNS], [RowPrinter], [show_txs], [merge_filters],
      [expand_comma] and the body of [scan];
    - [status] follows [src/icx/preps/status.py]: the three loops of
      [show_status] (roster resolution, aggregation, rendering) and the
      summary line.

    Python values that come out of JSON are kept as a [json] tree, Python
    exceptions are kept as values of [exn], and code that can raise lives in
    the error monad [exc].  Output is an explicit list of events. *)

From Stdlib Require Import ZArith String Ascii List Lia.
From Stdlib Require Import HexadecimalString DecimalString.
From stdpp Require Import base gmap strings list.

#[local] Set Warnings "-register-all".
#[local] Open Scope Z_scope.

(** ** Python exceptions and the error monad *)

Inductive exn : Type :=
  | KeyError
  | TypeError
  | ValueError
  | IndexError
  | AttributeError
  | UnboundLocalError
  | OverflowError
  | ExternalError.

Inductive exc (A : Type) : Type :=
  | Ok (a : A)
  | Raise (e : exn).
Arguments Ok {A} a.
Arguments Raise {A} e.

#[export] Instance exc_ret : MRet exc := fun _ a => Ok a.
#[export] Instance exc_bind : MBind exc := fun _ _ f m =>
  match m with
  | Ok a => f a
  | Raise e => Raise e
  end.

Definition is_ok {A} (m : exc A) : bool :=
  match m with Ok _ => true | Raise _ => false end.

(** ** JSON values as Python sees them after [json.load] / the RPC client *)

Inductive json : Type :=
  | JNull
  | JBool (b : bool)
  | JInt (n : Z)
  | JStr (s : string)
  | JList (l : list json)
  | JDict (d : gmap string json).

(** [sub in s] on two [str]: substring test. *)
Fixpoint str_contains (sub s : string) : bool :=
  if String.prefix sub s then true
  else match s with
       | EmptyString => false
       | String _ s' => str_contains sub s'
       end.

Definition is_str (k : string) (v : json) : bool :=
  match v with
  | JStr s => bool_decide (s = k)
  | _ => false
  end.

(** [k in value] for a [str] key [k]. *)
Definition py_in (k : string) (value : json) : exc bool :=
  match value with
  | JDict d => Ok (bool_decide (is_Some (d !! k)))
  | JStr s => Ok (str_contains k s)
  | JList l => Ok (existsb (is_str k) l)
  | JNull | JBool _ | JInt _ => Raise TypeError
  end.

(** [value[k]] for a [str] key [k]. *)
Definition py_getitem (value : json) (k : string) : exc json :=
  match value with
  | JDict d => match d !! k with
               | Some v => Ok v
               | None => Raise KeyError
               end
  | _ => Raise TypeError
  end.

(** [v in items] where [items] is a tuple or list of [str]. *)
Definition py_in_strs (v : json) (items : list string) : bool :=
  match v with
  | JStr s => bool_decide (s ∈ items)
  | _ => false
  end.

(** [str(n)] for an [int]. *)
Definition py_str_int (n : Z) : string :=
  NilZero.string_of_int (Z.to_int n).

(** [s.split(sep)] for a one-character separator. *)
Fixpoint split_on (sep : ascii) (s : string) : list string :=
  match s with
  | EmptyString => [EmptyString]
  | String c s' =>
      if Ascii.eqb c sep then EmptyString :: split_on sep s'
      else match split_on sep s' with
           | h :: t => String c h :: t
           | [] => [String c EmptyString]
           end
  end.

(** [s.split(',')]. *)
Definition split_comma (s : string) : list string := split_on ","%char s.

Fixpoint spaces (n : nat) : string :=
  match n with
  | O => EmptyString
  | S n' => String " "%char (spaces n')
  end.

(** The two format specifications the column table uses: [{:w}] and
    [{:>w}]. *)
Inductive fmt : Type :=
  | FmtDefault (w : nat)
  | FmtRight (w : nat).

Definition ljust (s : string) (w : nat) : string :=
  (s ++ spaces (w - String.length s))%string.
Definition rjust (s : string) (w : nat) : string :=
  (spaces (w - String.length s) ++ s)%string.

(** [format(s, spec)] for a [str]: it cannot fail. *)
Definition format_str (f : fmt) (s : string) : string :=
  match f with
  | FmtDefault w => ljust s w
  | FmtRight w => rjust s w
  end.

(** [format(v, spec)]: strings are left-aligned by default, integers
    (and booleans, which format as integers under a width) are
    right-aligned; [None], lists and dicts reject a non-empty spec. *)
Definition py_format (f : fmt) (v : json) : exc string :=
  match v with
  | JStr s => Ok (format_str f s)
  | JInt n => Ok (match f with
                  | FmtDefault w | FmtRight w => rjust (py_str_int n) w
                  end)
  | JBool b => Ok (match f with
                   | FmtDefault w | FmtRight w =>
                       rjust (if b then "1" else "0") w
                   end)
  | JNull | JList _ | JDict _ => Raise TypeError
  end.

Fixpoint join (sep : string) (l : list string) : string :=
  match l with
  | [] => EmptyString
  | [x] => x
  | x :: l' => (x ++ sep ++ join sep l')%string
  end.

(** * src/icx/txscan.py *)

Module txscan.

Inductive Shorten : Type := LEFT | MIDDLE.

(** The cursor of the loop: what [ensure_block] resolves the [BLOCK]
    argument to (a height, or a tag or hash kept as a string), and a
    height from the second turn on. *)
Inductive block_id : Type :=
  | BHeight (h : Z)
  | BTag (s : string).

(** What [txscan.py] takes from [icx/util.py] (not part of the sources at
    hand): [shorten], [format_decimals], [ensure_address], [ensure_block].
    They act on arbitrary Python values and may raise. *)
Class Util : Type := {
  shorten : json -> nat -> option Shorten -> exc json;
  format_decimals : json -> Z -> exc json;
  ensure_address : string -> exc string;
  ensure_block : string -> exc block_id;
}.

(** A block as [svc.get_block] returns it: the loop reads [blk['height']]
    and [blk['confirmed_transaction_list']]. *)
Record block : Type := {
  height : Z;
  confirmed_transaction_list : list json;
}.

(** [service.get_instance()]: the chain client, of which the loop uses
    [get_block]. *)
Class Service : Type := {
  get_block : block_id -> exc block;
}.

Definition FULL_ADDR_LEN : nat := 42.
Definition SHORT_ADDR_LEN : nat := 20.
Definition SHORT_VALUE_LEN : nat := 20.

(** The second argument of [dict_get]: one key or a list of keys. *)
Inductive keys_arg : Type :=
  | Key (k : string)
  | Keys (ks : list string).

Fixpoint dict_get_loop (value : json) (ks : list string) (default : json)
  : exc json :=
  match ks with
  | [] => Ok value
  | k :: ks' =>
      b ← py_in k value;
      if b : bool then v ← py_getitem value k; dict_get_loop v ks' default
      else Ok default
  end.

Definition dict_get (value : json) (keys : keys_arg) (default : json)
  : exc json :=
  dict_get_loop value
    (match keys with Key k => [k] | Keys ks => ks end) default.

Definition tx_pred : Type := json -> exc bool.

Fixpoint merge_filters (filter : list tx_pred) (tx : json) : exc bool :=
  match filter with
  | [] => Ok true
  | f :: filter' =>
      b ← f tx;
      if b : bool then merge_filters filter' tx else Ok false
  end.

Definition expand_comma (args : list string) : list string :=
  flat_map split_comma args.

(** Output of the command: the transient status line, the table header
    and the table rows. *)
Inductive out : Type :=
  | Status (id : block_id)
  | Header (line : string)
  | Data (line : string).

(** Printing code: the events printed so far and the result or the
    exception that ended it. *)
Definition io (A : Type) : Type := (list out * exc A)%type.

#[export] Instance io_ret : MRet io := fun _ a => ([], Ok a).
#[export] Instance io_bind : MBind io := fun _ _ f m =>
  match m with
  | (o, Ok a) => let '(o', r) := f a in (o ++ o', r)
  | (o, Raise e) => (o, Raise e)
  end.

Definition emit (o : out) : io unit := ([o], Ok tt).
Definition lift {A} (m : exc A) : io A := ([], m).

Record Column : Type := {
  get_value : string -> json -> exc json;
  size : nat;
  format : fmt;
  name : string;
}.

(** [Column(get_value, size, format=None, name='')]. *)
Definition mkColumn (get : string -> json -> exc json) (sz : nat)
  (f : option fmt) (nm : string) : Column :=
  {| get_value := get;
     size := sz;
     format := match f with Some f' => f' | None => FmtDefault sz end;
     name := nm |}.

Section columns.
Context `{Util}.

Definition shorten_address (s : json) : exc json :=
  shorten s SHORT_ADDR_LEN (Some MIDDLE).

Definition format_value (s : json) : exc json :=
  d ← format_decimals s 2; shorten d SHORT_VALUE_LEN (Some LEFT).

Definition TX_COLUMNS : gmap string Column :=
  list_to_map [
    ("id", mkColumn (fun title tx => py_getitem tx "txHash") 66 None "ID");
    ("from", mkColumn (fun title tx => dict_get tx (Key "from") (JStr "-"))
               FULL_ADDR_LEN None "From");
    ("from...", mkColumn (fun title tx =>
                  v ← dict_get tx (Key "from") (JStr "-"); shorten_address v)
                  SHORT_ADDR_LEN None "From");
    ("type", mkColumn (fun title tx =>
               dict_get tx (Key "dataType") (JStr "transfer")) 8 None "Type");
    ("method", mkColumn (fun title tx =>
                 v ← dict_get tx (Keys ["data"; "method"]) (JStr "-");
                 shorten v 20 None) 20 None "Method");
    ("to", mkColumn (fun title tx => dict_get tx (Key "to") (JStr "-"))
             FULL_ADDR_LEN None "To");
    ("to...", mkColumn (fun title tx =>
                v ← dict_get tx (Key "to") (JStr "-"); shorten_address v)
                SHORT_ADDR_LEN None "To");
    ("value", mkColumn (fun title tx =>
                v ← dict_get tx (Key "value") (JStr "0"); format_value v)
                20 (Some (FmtRight 20)) "Value")
  ].

Definition TX_HEIGHT_COLUMN : Column :=
  mkColumn (fun title tx => Ok (JStr title)) 8 (Some (FmtRight 8)) "Height".

Definition DEFAULT_COLUMN_NAMES : list string :=
  ["id"; "from..."; "type"; "method"; "to"; "value"].
End columns.

(** A line of the table: ['| ' + ' | '.join(formats) + ' |'] with the
    cells in place of the format specifications. *)
Definition table_line (cells : list string) : string :=
  ("| " ++ join " | " cells ++ " |")%string.

(** [RowPrinter]: [__init__] keeps the columns and the format string (as
    the list of the columns' format specifications) and renders the header
    from the columns' names. *)
Record RowPrinter : Type := {
  rp_columns : list Column;
  rp_formats : list fmt;
  rp_header : string;
}.

Definition new_RowPrinter (columns : list Column) : RowPrinter :=
  {| rp_columns := columns;
     rp_formats := map format columns;
     rp_header :=
       table_line (map (fun c => format_str (format c) (name c)) columns) |}.

(** [format_str.format( *values)]. *)
Fixpoint format_cells (fs : list fmt) (vs : list json) : exc (list string) :=
  match fs, vs with
  | f :: fs', v :: vs' =>
      c ← py_format f v; cs ← format_cells fs' vs'; Ok (c :: cs)
  | _, _ => Ok []
  end.

Fixpoint get_values (columns : list Column) (title : string) (tx : json)
  : exc (list json) :=
  match columns with
  | [] => Ok []
  | column :: columns' =>
      v ← get_value column title tx;
      vs ← get_values columns' title tx;
      Ok (v :: vs)
  end.

(** The text [print_data] prints for one transaction. *)
Definition row_line (printer : RowPrinter) (title : string) (tx : json)
  : exc string :=
  values ← get_values (rp_columns printer) title tx;
  cells ← format_cells (rp_formats printer) values;
  Ok (table_line cells).

Definition print_header (printer : RowPrinter) : io unit :=
  emit (Header (rp_header printer)).

Definition print_data (printer : RowPrinter) (title : string) (tx : json)
  : io unit :=
  line ← lift (row_line printer title tx);
  emit (Data line).

Fixpoint show_txs_loop (printer : RowPrinter) (title : string)
  (txs : list json) : io unit :=
  match txs with
  | [] => mret tt
  | tx :: txs' =>
      _ ← print_data printer title tx;
      show_txs_loop printer EmptyString txs'
  end.

Definition show_txs (printer : RowPrinter) (height : Z) (txs : list json)
  (reverse : bool) : io unit :=
  let txs := if reverse then rev txs else txs in
  show_txs_loop printer (py_str_int height) txs.

(** [list(filter(tx_filter, txs))]. *)
Fixpoint py_filter (f : tx_pred) (txs : list json) : exc (list json) :=
  match txs with
  | [] => Ok []
  | tx :: txs' =>
      b ← f tx;
      rest ← py_filter f txs';
      Ok (if b : bool then tx :: rest else rest)
  end.

(** The command line of [scan] as click hands it over. *)
Record options : Type := {
  columns : list string;
  block_arg : string;
  forward : bool;
  nobase : bool;
  receivers : list string;
  senders : list string;
  addresses : list string;
  methods : list string;
  data_types : list string;
}.

Section scan.
Context `{Util} `{Service}.

Definition nobase_filter : tx_pred := fun tx =>
  v ← dict_get tx (Key "dataType") JNull;
  Ok (negb (is_str "base" v)).

Definition to_filter (receivers : list string) : tx_pred := fun tx =>
  v ← dict_get tx (Key "to") JNull; Ok (py_in_strs v receivers).

Definition from_filter (senders : list string) : tx_pred := fun tx =>
  v ← dict_get tx (Key "from") JNull; Ok (py_in_strs v senders).

Definition address_filter (addresses : list string) : tx_pred := fun tx =>
  v ← dict_get tx (Key "from") JNull;
  if py_in_strs v addresses then Ok true
  else w ← dict_get tx (Key "to") JNull; Ok (py_in_strs w addresses).

Definition method_filter (methods : list string) : tx_pred := fun tx =>
  v ← dict_get tx (Keys ["data"; "method"]) JNull;
  Ok (py_in_strs v methods).

Definition data_type_filter (data_types : list string) : tx_pred := fun tx =>
  v ← dict_get tx (Key "dataType") (JStr "transfer");
  Ok (py_in_strs v data_types).

(** Lines 139-158 of [scan]: the list [tx_filters]. *)
Definition build_filters (o : options) : exc (list tx_pred) :=
  let f0 := if nobase o then [nobase_filter] else [] in
  f1 ← (if bool_decide (0 < length (receivers o))%nat then
          rs ← mapM ensure_address (expand_comma (receivers o));
          Ok (f0 ++ [to_filter rs])
        else Ok f0);
  f2 ← (if bool_decide (0 < length (senders o))%nat then
          ss ← mapM ensure_address (expand_comma (senders o));
          Ok (f1 ++ [from_filter ss])
        else Ok f1);
  f3 ← (if bool_decide (0 < length (addresses o))%nat then
          ads ← mapM ensure_address (expand_comma (addresses o));
          Ok (f2 ++ [address_filter ads])
        else Ok f2);
  let f4 := if bool_decide (0 < length (methods o))%nat
            then f3 ++ [method_filter (methods o)] else f3 in
  let f5 := if bool_decide (0 < length (data_types o))%nat
            then f4 ++ [data_type_filter (expand_comma (data_types o))]
            else f4 in
  Ok f5.

(** Lines 161-167: the columns of the table. *)
Definition lookup_column (x : string) : exc Column :=
  match TX_COLUMNS !! x with
  | Some c => Ok c
  | None => Raise KeyError
  end.

Definition build_printer (o : options) : exc RowPrinter :=
  let columns := if bool_decide (length (columns o) = 0%nat)
                 then DEFAULT_COLUMN_NAMES
                 else expand_comma (columns o) in
  column_data ← mapM lookup_column columns;
  Ok (new_RowPrinter (TX_HEIGHT_COLUMN :: column_data)).

Record loop_state : Type := {
  id : block_id;
  sep_print : bool;
}.

(** One turn of the [while True] loop, lines 172-186. *)
Definition scan_iter (fwd : bool) (tx_filter : tx_pred)
  (printer : RowPrinter) (st : loop_state) : io loop_state :=
  _ ← emit (Status (id st));
  blk ← lift (get_block (id st));
  let height := height blk in
  txs ← lift (py_filter tx_filter (confirmed_transaction_list blk));
  sep ← (if bool_decide (0 < length txs)%nat then
           _ ← (if negb (sep_print st) then print_header printer
                else mret tt);
           _ ← show_txs printer height txs (negb fwd);
           mret true
         else mret (sep_print st));
  mret {| id := BHeight (if fwd then height + 1 else height - 1);
          sep_print := sep |}.

(** The first [fuel] turns of the loop. *)
Fixpoint scan_loop (fuel : nat) (fwd : bool) (tx_filter : tx_pred)
  (printer : RowPrinter) (st : loop_state) : io loop_state :=
  match fuel with
  | O => mret st
  | S fuel' =>
      st' ← scan_iter fwd tx_filter printer st;
      scan_loop fuel' fwd tx_filter printer st'
  end.

(** Everything [scan] does before the loop. *)
Definition scan_setup (o : options)
  : exc (tx_pred * RowPrinter * loop_state) :=
  tx_filters ← build_filters o;
  let tx_filter := merge_filters tx_filters in
  printer ← build_printer o;
  start ← ensure_block (block_arg o);
  Ok (tx_filter, printer, {| id := start; sep_print := false |}).

Definition scan (fuel : nat) (o : options) : io loop_state :=
  '(tx_filter, printer, st) ← lift (scan_setup o);
  scan_loop fuel (forward o) tx_filter printer st.
End scan.

(** ** Stand-ins for the missing collaborators, used to run the model *)

(** Modelled from the spec: [util.shorten], of which the spec says only
    that addresses get a middle ellipsis and amounts are truncated on the
    left.  A string that fits the limit is returned as it is. *)
Definition demo_shorten (v : json) (n : nat) (mode : option Shorten)
  : exc json :=
  match v with
  | JStr s =>
      let len := String.length s in
      if (len <=? n)%nat then Ok (JStr s)
      else match mode with
           | Some MIDDLE =>
               let half := ((n - 3) / 2)%nat in
               Ok (JStr (String.substring 0 half s ++ "..." ++
                         String.substring (len - half) half s)%string)
           | Some LEFT =>
               Ok (JStr ("..." ++
                         String.substring (len - (n - 3)) (n - 3) s)%string)
           | None =>
               Ok (JStr (String.substring 0 (n - 3) s ++ "...")%string)
           end
  | _ => Raise TypeError
  end.

(** Modelled from the spec: [util.format_decimals], [util.ensure_address]
    and [util.ensure_block]; the spec names amounts "decimal-formatted",
    addresses "normalized" and the start "a literal height, a tag such as
    latest".  The stand-ins keep a string amount and an address as they
    are and read a start made of decimal digits as a height. *)
Definition demo_format_decimals (v : json) (digits : Z) : exc json :=
  match v with
  | JStr s => Ok (JStr s)
  | _ => Raise TypeError
  end.

Definition demo_ensure_block (s : string) : exc block_id :=
  match NilZero.uint_of_string s with
  | Some n => Ok (BHeight (Z.of_uint n))
  | None => Ok (BTag s)
  end.

Definition demo_util : Util :=
  {| shorten := demo_shorten;
     format_decimals := demo_format_decimals;
     ensure_address := fun a => Ok a;
     ensure_block := demo_ensure_block |}.

Definition demo_tx (hash : string) (dt : option string) (meth : string)
  : json :=
  let base : gmap string json :=
    <["txHash" := JStr hash]>
      (<["from" := JStr "hx1"]>
         (<["to" := JStr "cx2"]>
            (<["data" := JDict (<["method" := JStr meth]> ∅)]> ∅))) in
  JDict (match dt with
         | Some t => <["dataType" := JStr t]> base
         | None => base
         end).

(** A chain for running the loop: every height has a block; the blocks
    at multiples of three carry three transactions, the others none. *)
Definition demo_service : Service :=
  {| get_block := fun i =>
       let h := match i with BHeight h => h | BTag _ => 100 end in
       Ok {| height := h;
             confirmed_transaction_list :=
               if (h `mod` 3 =? 0)
               then [demo_tx "0xa" (Some "base") "x";
                     demo_tx "0xb" (Some "call") "transfer";
                     demo_tx "0xc" (Some "call") "stake"]
               else [] |} |}.

Definition no_options : options :=
  {| columns := []; block_arg := "latest"; forward := false; nobase := false;
     receivers := []; senders := []; addresses := []; methods := [];
     data_types := [] |}.

Definition KNOWN_COLUMNS : list string :=
  ["id"; "from"; "from..."; "type"; "method"; "to"; "to..."; "value"].

(** ** Vocabulary of the properties *)

(** The key of the transaction record a column reads first. *)
Definition column_key (nm : string) : string :=
  if bool_decide (nm = "id") then "txHash"
  else if bool_decide (nm = "from" \/ nm = "from...") then "from"
  else if bool_decide (nm = "type") then "dataType"
  else if bool_decide (nm = "method") then "data"
  else if bool_decide (nm = "to" \/ nm = "to...") then "to"
  else nm.

(** The field a column extracts is absent from the record [d]: its key is
    missing, or, for the method column, the call data is a dict without a
    method. *)
Definition field_absent (nm : string) (d : gmap string json) : Prop :=
  d !! column_key nm = None
  \/ (nm = "method" /\ exists m : gmap string json,
         d !! "data" = Some (JDict m) /\ m !! "method" = None).

(** The sentence "an absent field renders as a dash", for every column. *)
Definition absent_field_renders_dash (U : Util) : Prop :=
  forall (nm : string) (c : Column) (title : string) (d : gmap string json),
    TX_COLUMNS !! nm = Some c -> field_absent nm d ->
    get_value c title (JDict d) = Ok (JStr "-").

(** The cursors of the status lines; each status line is printed right
    before the fetch of the cursor it shows. *)
Fixpoint fetched (o : list out) : list block_id :=
  match o with
  | [] => []
  | Status i :: o' => i :: fetched o'
  | _ :: o' => fetched o'
  end.

(** The table: everything printed but the status lines. *)
Fixpoint table_out (o : list out) : list out :=
  match o with
  | [] => []
  | Status _ :: o' => table_out o'
  | e :: o' => e :: table_out o'
  end.

(** The labels of [n] rows of one block: the first row carries the
    label, the others the empty string. *)
Definition titles (label : string) (n : nat) : list string :=
  match n with
  | O => []
  | S k => label :: repeat EmptyString k
  end.

(** The cells of a transaction under the chosen columns, the height
    column apart. *)
Definition tx_cells (cols : list Column) (tx : json) : exc (list string) :=
  values ← get_values cols EmptyString tx;
  format_cells (map format cols) values.

(** The rows of one block: the height label in a right-aligned cell of
    width 8, then the cells of the transaction. *)
Definition block_rows (cols : list Column) (h : Z) (txs : list json)
  : exc (list string) :=
  cellss ← mapM (tx_cells cols) txs;
  Ok (zip_with (fun t cs => table_line (rjust t 8 :: cs))
        (titles (py_str_int h) (length txs)) cellss).

(** A column of [TX_COLUMNS]. *)
Definition table_column `{Util} (c : Column) : Prop :=
  exists nm, TX_COLUMNS !! nm = Some c.

(** The state after the block [blk] has been processed. *)
Definition next_state (fwd : bool) (blk : block) (sep : bool)
  : loop_state :=
  {| id := BHeight (if fwd then height blk + 1 else height blk - 1);
     sep_print := sep |}.

(** A transaction the filter accepts. *)
Definition accepts (f : tx_pred) (tx : json) : bool :=
  match f tx with
  | Ok true => true
  | _ => false
  end.

(** ** More of [RowPrinter] and of the options *)

(** ['-' * n]. *)
Fixpoint dashes (n : nat) : string :=
  match n with
  | O => EmptyString
  | S n' => String "-"%char (dashes n')
  end.

(** [self.__sep_str], the text [print_separater] prints:
    ['+-' + '-+-'.join(seps) + '-+'] with one run of dashes per column. *)
Definition sep_str (columns : list Column) : string :=
  ("+-" ++ join "-+-" (map (fun c => dashes (size c)) columns) ++ "-+")%string.

(** The width a format specification pads to. *)
Definition fmt_width (f : fmt) : nat :=
  match f with
  | FmtDefault w | FmtRight w => w
  end.

(** A column whose name fits its width and whose format pads to its
    size, as every column of the module does. *)
Definition well_sized (c : Column) : Prop :=
  (String.length (name c) <= size c)%nat /\ fmt_width (format c) = size c.

(** A value that fills its cell exactly: a string no longer than the
    width. *)
Definition fits (c : Column) (v : json) : Prop :=
  exists s, v = JStr s /\ (String.length s <= fmt_width (format c))%nat.

(** The string holds a comma. *)
Fixpoint has_comma (s : string) : bool :=
  match s with
  | EmptyString => false
  | String c s' => Ascii.eqb c ","%char || has_comma s'
  end.

(** The number of filters the options enable. *)
Definition enabled_count (o : options) : nat :=
  ((if nobase o then 1 else 0)
   + (if bool_decide (receivers o = []) then 0 else 1)
   + (if bool_decide (senders o = []) then 0 else 1)
   + (if bool_decide (addresses o = []) then 0 else 1)
   + (if bool_decide (methods o = []) then 0 else 1)
   + (if bool_decide (data_types o = []) then 0 else 1))%nat.

(** A chain that starts at height 0: a fetch below it, or of a tag,
    fails.  Used to run the loop into a failing fetch. *)
Definition genesis_service : Service :=
  {| get_block := fun i =>
       match i with
       | BHeight h =>
           if 0 <=? h
           then Ok {| height := h; confirmed_transaction_list := [] |}
           else Raise ExternalError
       | BTag _ => Raise ExternalError
       end |}.

(** Modelled from the spec: [util.ensure_address] ("normalized
    addresses"), in a variant of the stand-in that rejects a string which
    starts with neither hx nor cx.  Used to run [scan] into a rejected
    address. *)
Definition strict_util : Util :=
  {| shorten := demo_shorten;
     format_decimals := demo_format_decimals;
     ensure_address := fun a =>
       if String.prefix "hx" a || String.prefix "cx" a then Ok a
       else Raise ValueError;
     ensure_block := demo_ensure_block |}.

(** The text [format] lays out for a value: a string as it is, an integer
    (or a boolean, as the integer it is) in decimal. *)
Definition value_text (v : json) : option string :=
  match v with
  | JStr s => Some s
  | JInt n => Some (py_str_int n)
  | JBool b => Some (if b then "1" else "0")
  | JNull | JList _ | JDict _ => None
  end.

(** A chain every block of which carries a call of method "transfer"
    followed by a record whose call data is a number, on which a method
    filter raises.  Used to run the loop into a failing filter. *)
Definition odd_service : Service :=
  {| get_block := fun i =>
       let h := match i with BHeight h => h | BTag _ => 100 end in
       Ok {| height := h;
             confirmed_transaction_list :=
               [demo_tx "0xb" (Some "call") "transfer";
                JDict (<["txHash" := JStr "0xe"]>
                         (<["data" := JInt 3]> ∅))] |} |}.

End txscan.

(** * src/icx/preps/status.py *)

Module status.

(** ** [datetime] as the command uses it

    A naive [datetime] is a count of microseconds since
    0001-01-01T00:00:00; [datetime.max] is 9999-12-31T23:59:59.999999. *)
Definition DAY_SECONDS : Z := 86400.
Definition MAX_ORDINAL : Z := 3652059.
Definition MAX_DELTA_DAYS : Z := 999999999.
Definition datetime_limit : Z := MAX_ORDINAL * DAY_SECONDS * 1000000.

Definition datetime_valid (t : Z) : bool :=
  (0 <=? t) && (t <? datetime_limit).

(** [datetime.timedelta(seconds=n)] for an [int] [n], in microseconds. *)
Definition timedelta_seconds (n : Z) : exc Z :=
  if Z.abs (n `div` DAY_SECONDS) <=? MAX_DELTA_DAYS
  then Ok (n * 1000000) else Raise OverflowError.

(** [t + delta]. *)
Definition datetime_add (t delta : Z) : exc Z :=
  if datetime_valid (t + delta) then Ok (t + delta) else Raise OverflowError.

Definition two_digits (n : Z) : string :=
  let pad : string := if n <? 10 then "0" else "" in
  (pad ++ py_str_int n)%string.

(** [t.strftime('%H:%M:%S')]. *)
Definition strftime_HMS (t : Z) : string :=
  let sod := (t `div` 1000000) `mod` DAY_SECONDS in
  (two_digits (sod `div` 3600) ++ ":" ++
   two_digits ((sod `div` 60) `mod` 60) ++ ":" ++
   two_digits (sod `mod` 60))%string.

(** ** Data *)

(** A roster entry of [icon_getPReps()['preps']]. *)
Record prep_entry : Type := {
  address : string;
  nodeAddress : option string;
  grade : string;
  name : string;
  power : string;
}.

(** An entry of the node metadata file. *)
Record node_info : Type := {
  info_name : option string;
  info_ip : option string;
}.

(** The chain snapshot a node answers [node_get_chain] with. *)
Record chain_t : Type := {
  c_height : option Z;
  c_state : option string;
}.

(** The dict [PRep.prep] holds. *)
Record prep_dict : Type := {
  p_name : string;
  p_ip : option string;
  p_type : string;
  p_power : Z;
}.

(** [class PRep]: [prep] is the dict or [None]; [futures] is either the
    empty list or the chain future followed by the version future, each
    kept as what its [result()] gives. *)
Record PRep : Type := {
  prep : option prep_dict;
  futures : option (exc chain_t * exc string);
}.

(** What [status.py] takes from [prep.py], [semanticversion.py] and the
    Python runtime (none of them part of the sources at hand). *)
Class Deps : Type := {
  GRADE_TO_TYPE : gmap string string;
  node_get_chain : string -> exc chain_t;
  node_get_version : string -> exc string;
  is_lower_version : option string -> option string -> exc bool;
  py_int0 : string -> exc Z;
}.

(** The inputs of one run. *)
Record run_input : Type := {
  prep_info : gmap string node_info;
  nextPRepTerm : string;
  preps : list prep_entry;
  now : Z;
  version_opt : option string;
}.

(** ** Output *)

Inductive arg : Type :=
  | AInt (n : Z)
  | AStr (s : string).

(** [print(format % args)], kept as the pair. *)
Record line : Type := {
  l_format : string;
  l_args : list arg;
}.

Definition io (A : Type) : Type := (list line * exc A)%type.

#[export] Instance io_ret : MRet io := fun _ a => ([], Ok a).
#[export] Instance io_bind : MBind io := fun _ _ f m =>
  match m with
  | (o, Ok a) => let '(o', r) := f a in (o ++ o', r)
  | (o, Raise e) => (o, Raise e)
  end.

Definition print (l : line) : io unit := ([l], Ok tt).
Definition lift {A} (m : exc A) : io A := ([], m).

Definition ESC : string := String "027"%char EmptyString.
Definition GC : string := (ESC ++ "[2m")%string.
Definition WC : string := (ESC ++ "[31;1m")%string.
Definition IC : string := (ESC ++ "[32;1m")%string.
Definition MC : string := (ESC ++ "[33;1m")%string.
Definition BC : string := (ESC ++ "[34;1m")%string.
Definition NC : string := (ESC ++ "[0m")%string.
Definition STATUS_FORMAT : string := "[%3d] %-18s (%4s): %-15s ".
Definition NOPOWER_FORMAT : string :=
  (GC ++ "[%3d] %-18s (%4s): %-15s" ++ NC ++ " ")%string.
Definition MAIN_FORMAT : string :=
  (BC ++ "[%3d] %-18s (%4s): %-15s" ++ NC ++ " ")%string.
Definition LAST_FORMAT : string := ">>>  Late: %d / %d".
Definition LAST_FOOTER : string := "  <<<".
Definition FAIL_FORMAT : string := ": %s".
Definition RAW_VERSION_FORMAT : string := ": %-7s ".
Definition LOWER_VERSION_FORMAT : string := (": " ++ WC ++ "%-16s" ++ NC ++ " ")%string.
Definition OK_VERSION_FORMAT : string := (": " ++ IC ++ "%-16s" ++ NC ++ " ")%string.
Definition LATE_FORMAT : string := (": " ++ WC ++ "%8d %s" ++ NC ++ " (%d)")%string.
Definition PLAIN_FORMAT : string := ": %8d %s".

Section show_status.
Context `{Deps}.

(** ** First loop (lines 52-85): one [PRep] per roster entry

    The loop state is the list [items] and the local variable [item],
    which is unbound until the first full record is built. *)
Record build_state : Type := {
  items : list PRep;
  item : option PRep;
}.

Definition resolve_addr (prep : prep_entry) : string :=
  match nodeAddress prep with
  | Some a => a
  | None => address prep
  end.

(** [item.append(...)] on line 61: [item] is a local of [show_status];
    unbound it cannot be read, bound it is a [PRep], which has no
    [append]. Either way the call raises before its argument is
    evaluated. *)
Definition item_append (st : build_state) : exc build_state :=
  match item st with
  | None => Raise UnboundLocalError
  | Some _ => Raise AttributeError
  end.

Definition grade_to_type (g : string) : exc string :=
  match GRADE_TO_TYPE !! g with
  | Some t => Ok t
  | None => Raise KeyError
  end.

Definition build_step (info_map : gmap string node_info)
  (st : build_state) (prep : prep_entry) : exc build_state :=
  let addr := resolve_addr prep in
  match info_map !! addr with
  | None =>
      if bool_decide (grade prep = "0x1")
      then Ok {| items := items st ++ [{| prep := None; futures := None |}];
                 item := item st |}
      else item_append st
  | Some info =>
      match info_name info, info_ip info with
      | Some _, Some ip =>
          ty ← grade_to_type (grade prep);
          pw ← py_int0 (power prep);
          let it := {| prep := Some {| p_name := name prep;
                                       p_ip := Some ip;
                                       p_type := ty;
                                       p_power := pw |};
                       futures := Some (node_get_chain ip,
                                        node_get_version ip) |} in
          Ok {| items := items st ++ [it]; item := Some it |}
      | _, _ =>
          Ok {| items := items st ++ [{| prep := None; futures := None |}];
                item := item st |}
      end
  end.

Fixpoint build_loop (info_map : gmap string node_info) (st : build_state)
  (roster : list prep_entry) : exc build_state :=
  match roster with
  | [] => Ok st
  | prep :: roster' =>
      st' ← build_step info_map st prep;
      build_loop info_map st' roster'
  end.

Definition build_items (info_map : gmap string node_info)
  (roster : list prep_entry) : exc (list PRep) :=
  st ← build_loop info_map {| items := []; item := None |} roster;
  Ok (items st).

(** ** Second loop (lines 92-106): aggregation *)
Record agg : Type := {
  top_height : Z;
  last_version : option string;
}.

(** An item after the loop has set [item.chain] and [item.version]. *)
Record polled : Type := {
  p_item : PRep;
  chain : option chain_t;
  version : string;
}.

(** The body of the [try]: updates of [top_height] and [last_version]
    made before an exception stay. *)
Definition poll_try (a : agg) (it : PRep) : agg * exc (chain_t * string) :=
  match futures it with
  | None => (a, Raise IndexError)
  | Some (fc, fv) =>
      match fc with
      | Raise e => (a, Raise e)
      | Ok c =>
          let a1 := match c_height c with
                    | Some height =>
                        if top_height a <? height
                        then {| top_height := height;
                                last_version := last_version a |}
                        else a
                    | None => a
                    end in
          match fv with
          | Raise e => (a1, Raise e)
          | Ok v =>
              match is_lower_version (last_version a1) (Some v) with
              | Raise e => (a1, Raise e)
              | Ok b =>
                  (if b : bool
                   then {| top_height := top_height a1;
                           last_version := Some v |}
                   else a1, Ok (c, v))
              end
          end
      end
  end.

(** [try] and [except] together. *)
Definition poll_item (a : agg) (it : PRep) : agg * polled :=
  match poll_try a it with
  | (a', Ok (c, v)) =>
      (a', {| p_item := it; chain := Some c; version := v |})
  | (a', Raise _) =>
      (a', {| p_item := it; chain := None; version := "unknown" |})
  end.

Fixpoint aggregate_loop (a : agg) (its : list PRep) : agg * list polled :=
  match its with
  | [] => (a, [])
  | it :: its' =>
      let '(a1, p) := poll_item a it in
      let '(a2, ps) := aggregate_loop a1 its' in
      (a2, p :: ps)
  end.

Definition aggregate (its : list PRep) : agg * list polled :=
  aggregate_loop {| top_height := 0; last_version := None |} its.

(** ** Third loop (lines 126-183): one line per item *)
Record counters : Type := {
  idx : Z;
  late_nodes : Z;
  updated_main : Z;
  updated_in22 : Z;
  updated_nodes : Z;
  all_nodes : Z;
  main_nodes : Z;
}.

Definition counters0 : counters :=
  {| idx := 0; late_nodes := 0; updated_main := 0; updated_in22 := 0;
     updated_nodes := 0; all_nodes := 0; main_nodes := 0 |}.

Definition is_main (d : prep_dict) : bool :=
  bool_decide (p_type d = "Main").

Definition base_format (d : prep_dict) : string :=
  if 0 <? p_power d then
    if is_main d then MAIN_FORMAT else STATUS_FORMAT
  else NOPOWER_FORMAT.

(** Lines 153-169: the version cell of a reachable node. *)
Definition version_cell (version_check : option string) (d : prep_dict)
  (v : string) (c : counters) : exc (string * list arg * counters) :=
  match version_check with
  | None => Ok (RAW_VERSION_FORMAT, [AStr v], c)
  | Some vc =>
      lower ← is_lower_version (Some v) (Some vc);
      if lower : bool then
        Ok (LOWER_VERSION_FORMAT, [AStr v],
            {| idx := idx c; late_nodes := late_nodes c;
               updated_main := updated_main c;
               updated_in22 := updated_in22 c;
               updated_nodes := updated_nodes c;
               all_nodes := all_nodes c;
               main_nodes := if is_main d then main_nodes c + 1
                             else main_nodes c |})
      else
        Ok (OK_VERSION_FORMAT, [AStr "[OK]"],
            {| idx := idx c; late_nodes := late_nodes c;
               updated_main := if is_main d then updated_main c + 1
                               else updated_main c;
               updated_in22 := if idx c <? 22 then updated_in22 c + 1
                               else updated_in22 c;
               updated_nodes := updated_nodes c + 1;
               all_nodes := all_nodes c;
               main_nodes := if is_main d then main_nodes c + 1
                             else main_nodes c |})
  end.

(** Lines 171-180: the height cell of a reachable node; the third
    component says whether [late_nodes] is incremented. *)
Definition height_cell (top : Z) (ch : chain_t)
  : string * list arg * bool :=
  match c_height ch, c_state ch with
  | Some height, Some state =>
      if height <? top - 2
      then (LATE_FORMAT, [AInt height; AStr state; AInt (height - top)],
            true)
      else (PLAIN_FORMAT, [AInt height; AStr state], false)
  | _, _ => (EmptyString, [], false)
  end.

Definition bump_idx (c : counters) : counters :=
  {| idx := idx c + 1; late_nodes := late_nodes c;
     updated_main := updated_main c; updated_in22 := updated_in22 c;
     updated_nodes := updated_nodes c; all_nodes := all_nodes c;
     main_nodes := main_nodes c |}.

Definition display_item (top : Z) (version_check : option string)
  (c : counters) (p : polled) : io counters :=
  match prep (p_item p) with
  | None => mret (bump_idx c)
  | Some d =>
      ip ← lift (match p_ip d with
                 | Some ip => Ok ip
                 | None => Raise KeyError
                 end);
      let args := [AInt (idx c); AStr (String.substring 0 18 (p_name d));
                   AStr (p_type d); AStr ip] in
      let format := base_format d in
      '(format, args, c) ←
        lift (match chain p with
              | None =>
                  Ok ((format ++ FAIL_FORMAT)%string,
                      args ++ [AStr (MC ++ "FAIL" ++ NC)%string], c)
              | Some ch =>
                  let c := {| idx := idx c; late_nodes := late_nodes c;
                              updated_main := updated_main c;
                              updated_in22 := updated_in22 c;
                              updated_nodes := updated_nodes c;
                              all_nodes := all_nodes c + 1;
                              main_nodes := main_nodes c |} in
                  '(vf, va, c) ← version_cell version_check d (version p) c;
                  let '(hf, ha, late) := height_cell top ch in
                  Ok ((format ++ vf ++ hf)%string, args ++ va ++ ha,
                      {| idx := idx c;
                         late_nodes := if late : bool then late_nodes c + 1
                                       else late_nodes c;
                         updated_main := updated_main c;
                         updated_in22 := updated_in22 c;
                         updated_nodes := updated_nodes c;
                         all_nodes := all_nodes c;
                         main_nodes := main_nodes c |})
              end);
      _ ← print {| l_format := format; l_args := args |};
      mret (bump_idx c)
  end.

Fixpoint display_loop (top : Z) (version_check : option string)
  (c : counters) (ps : list polled) : io counters :=
  match ps with
  | [] => mret c
  | p :: ps' =>
      c' ← display_item top version_check c p;
      display_loop top version_check c' ps'
  end.

(** ** Summary (lines 184-194) *)
Definition time_next (now next_term top : Z) : exc Z :=
  delta ← timedelta_seconds ((next_term - top) * 2);
  datetime_add now delta.

Definition summary (now next_term top : Z) (version_check : option string)
  (c : counters) : io unit :=
  let format := LAST_FORMAT in
  let args := [AInt (late_nodes c); AInt (all_nodes c)] in
  t ← lift (time_next now next_term top);
  let format := (format ++ "  NextTerm: %d / %s")%string in
  let args := args ++ [AInt next_term; AStr (strftime_HMS t)] in
  let '(format, args) :=
    match version_check with
    | Some vc =>
        ((format ++ "   %s Updated: %d / %d / %d")%string,
         args ++ [AStr vc; AInt (updated_main c); AInt (updated_nodes c);
                  AInt (all_nodes c)])
    | None => (format, args)
    end in
  print {| l_format := (format ++ LAST_FOOTER)%string; l_args := args |}.

(** ** The command *)
Definition show_status (inp : run_input) : io unit :=
  next_term ← lift (py_int0 (nextPRepTerm inp));
  its ← lift (build_items (prep_info inp) (preps inp));
  let '(a, ps) := aggregate its in
  let version_check := match version_opt inp with
                       | Some v => Some v
                       | None => last_version a
                       end in
  c ← display_loop (top_height a) version_check counters0 ps;
  summary (now inp) next_term (top_height a) version_check c.
End show_status.

(** ** Stand-ins for the missing collaborators, used to run the model *)

(** Modelled from the spec: [semanticversion.is_lower_version].  "Returns
    true iff a is strictly less than b under dotted-numeric comparison,
    where an absent a is always lower than any concrete version, and an
    absent b makes the result always false"; components compare as
    integers, the first difference decides, and missing trailing
    components count as zero.  A component that is not a number raises. *)
Definition parse_version (v : string) : exc (list Z) :=
  mapM (fun part : string =>
          match part with
          | EmptyString => Raise ValueError
          | _ => match NilZero.uint_of_string part with
                 | Some n => Ok (Z.of_uint n)
                 | None => Raise ValueError
                 end
          end) (split_on "."%char v).

Fixpoint version_lt_upto (n : nat) (a b : list Z) : bool :=
  match n with
  | O => false
  | S n' =>
      let x := hd 0 a in
      let y := hd 0 b in
      if x <? y then true
      else if y <? x then false
      else version_lt_upto n' (tl a) (tl b)
  end.

Definition version_lt (a b : list Z) : bool :=
  version_lt_upto (Nat.max (length a) (length b)) a b.

Definition demo_is_lower_version (a b : option string) : exc bool :=
  match b with
  | None => Ok false
  | Some vb =>
      match a with
      | None => Ok true
      | Some va =>
          la ← parse_version va; lb ← parse_version vb;
          Ok (version_lt la lb)
      end
  end.

(** Modelled from the spec: the grade table and the node queries of
    [prep.py] ("grade (one of a fixed small set of tiers, e.g.
    top-tier/sub-tier/candidate)"; "chain snapshot (height + state) and
    software version").  Four nodes answer; the fourth answers the chain
    query and fails the version query; every other address fails both. *)
Definition demo_GRADE_TO_TYPE : gmap string string :=
  list_to_map [("0x0", "Main"); ("0x1", "Sub"); ("0x2", "Cand")].

Definition demo_get_chain (ip : string) : exc chain_t :=
  if bool_decide (ip = "10.0.0.1")
  then Ok {| c_height := Some 100; c_state := Some "started" |}
  else if bool_decide (ip = "10.0.0.2")
  then Ok {| c_height := Some 98; c_state := Some "started" |}
  else if bool_decide (ip = "10.0.0.3")
  then Ok {| c_height := Some 97; c_state := Some "started" |}
  else if bool_decide (ip = "10.0.0.4")
  then Ok {| c_height := Some 120; c_state := Some "started" |}
  else Raise ExternalError.

Definition demo_get_version (ip : string) : exc string :=
  if bool_decide (ip = "10.0.0.1") then Ok "1.3.0"
  else if bool_decide (ip = "10.0.0.2") then Ok "1.2.9"
  else if bool_decide (ip = "10.0.0.3") then Ok "1.3.1"
  else Raise ExternalError.

(** Modelled from the spec: Python's [int(s, 0)] on the next-term height
    and the voting power, which the chain gives as "0x" hexadecimal. *)
Definition demo_int0 (s : string) : exc Z :=
  match s with
  | String "0" (String "x" (String c r)) =>
      match HexadecimalString.NilZero.uint_of_string (String c r) with
      | Some n => Ok (Z.of_hex_uint n)
      | None => Raise ValueError
      end
  | String c r =>
      match NilZero.uint_of_string (String c r) with
      | Some n => Ok (Z.of_uint n)
      | None => Raise ValueError
      end
  | EmptyString => Raise ValueError
  end.

Definition demo_deps : Deps :=
  {| GRADE_TO_TYPE := demo_GRADE_TO_TYPE;
     node_get_chain := demo_get_chain;
     node_get_version := demo_get_version;
     is_lower_version := demo_is_lower_version;
     py_int0 := demo_int0 |}.

Definition demo_entry (addr grade name : string) : prep_entry :=
  {| address := addr; nodeAddress := None; grade := grade; name := name;
     power := "0x10" |}.

Definition demo_info (ip : string) : node_info :=
  {| info_name := Some "node"; info_ip := Some ip |}.

Definition demo_prep_info : gmap string node_info :=
  list_to_map [("hx01", demo_info "10.0.0.1"); ("hx02", demo_info "10.0.0.2");
               ("hx03", demo_info "10.0.0.3"); ("hx04", demo_info "10.0.0.4")].

Definition demo_input (roster : list prep_entry) : run_input :=
  {| prep_info := demo_prep_info;
     nextPRepTerm := "0x96";
     preps := roster;
     now := 63900000000 * 1000000;
     version_opt := None |}.

(** ** Vocabulary of the properties *)

(** A roster entry that is absent from the metadata file and whose grade
    is not the one the first loop skips. *)
Definition degraded_entry (info_map : gmap string node_info)
  (prep : prep_entry) : Prop :=
  info_map !! resolve_addr prep = None /\ grade prep <> "0x1".

(** The heights the chain queries answered with, in roster order. *)
Fixpoint polled_heights (its : list PRep) : list Z :=
  match its with
  | [] => []
  | it :: its' =>
      match futures it with
      | Some (Ok {| c_height := Some h |}, _) => h :: polled_heights its'
      | _ => polled_heights its'
      end
  end.

(** The running maximum of the aggregation loop. *)
Definition max_from (base : Z) (l : list Z) : Z := fold_left Z.max l base.

(** A result that is not marked unreachable. *)
Definition populated `{Deps} (p : polled) : bool :=
  match chain p with
  | Some _ => true
  | None => false
  end.

(** A result is the pair of both answers or the unreachable marker. *)
Definition all_or_nothing `{Deps} (p : polled) : Prop :=
  (exists c v, futures (p_item p) = Some (Ok c, Ok v)
               /\ chain p = Some c /\ version p = v)
  \/ (chain p = None /\ version p = "unknown").

(** The sentence "only fully populated nodes contribute to the
    aggregates": aggregating the populated nodes alone gives the same top
    height and last version. *)
Definition aggregates_only_from_populated (D : Deps) (its : list PRep)
  : Prop :=
  (aggregate its).1 =
  (aggregate (map p_item (List.filter populated (aggregate its).2))).1.

(** ** More vocabulary: the lines and the counters *)

(** The conversion letters of a printf-style format, in order: after a
    [%], everything up to the first [d] or [s] is flags and width (the
    formats of the module use no other conversion and no [%%]). *)
Fixpoint conversions (in_spec : bool) (s : string) : list ascii :=
  match s with
  | EmptyString => []
  | String c s' =>
      if in_spec then
        if Ascii.eqb c "d"%char || Ascii.eqb c "s"%char
        then c :: conversions false s'
        else conversions true s'
      else conversions (Ascii.eqb c "%"%char) s'
  end.

(** [%d] takes an [int], [%s] anything. *)
Definition arg_matches (conv : ascii) (a : arg) : bool :=
  match a with
  | AInt _ => true
  | AStr _ => Ascii.eqb conv "s"%char
  end.

(** [format % args] is defined: as many arguments as conversions, each of
    the kind its conversion takes. *)
Fixpoint args_match (convs : list ascii) (args : list arg) : bool :=
  match convs, args with
  | [], [] => true
  | c :: convs', a :: args' => arg_matches c a && args_match convs' args'
  | _, _ => false
  end.

Definition line_ok (l : line) : bool :=
  args_match (conversions false (l_format l)) (l_args l).

(** An item that gets a line: it is not a placeholder. *)
Definition shown (p : polled) : bool :=
  match prep (p_item p) with
  | Some _ => true
  | None => false
  end.

(** An item counted in [all_nodes]: shown and not marked unreachable. *)
Definition reachable_row (p : polled) : bool :=
  shown p && match chain p with Some _ => true | None => false end.

(** An item counted in [late_nodes]. *)
Definition late_row (top : Z) (p : polled) : bool :=
  shown p && match chain p with
             | Some {| c_height := Some h; c_state := Some _ |} =>
                 h <? top - 2
             | _ => false
             end.

(** The roster positions of the items that get a line, counted from
    [i]. *)
Fixpoint shown_indices (i : Z) (ps : list polled) : list Z :=
  match ps with
  | [] => []
  | p :: ps' =>
      if shown p then i :: shown_indices (i + 1) ps'
      else shown_indices (i + 1) ps'
  end.

(** The first argument of a line. *)
Definition first_arg (l : line) : option arg := head (l_args l).

(** What the counters of the summary keep. *)
Definition counters_ok (c : counters) : Prop :=
  0 <= late_nodes c <= all_nodes c
  /\ 0 <= updated_main c <= updated_nodes c
  /\ updated_nodes c <= all_nodes c
  /\ updated_main c <= main_nodes c <= all_nodes c
  /\ 0 <= updated_in22 c <= updated_nodes c.

Section entry_vocabulary.
Context `{Deps}.

(** A roster entry the first loop gets through. *)
Definition entry_ok (info_map : gmap string node_info) (e : prep_entry)
  : bool :=
  match info_map !! resolve_addr e with
  | None => bool_decide (grade e = "0x1")
  | Some info =>
      match info_name info, info_ip info with
      | Some _, Some _ =>
          is_ok (grade_to_type (grade e)) && is_ok (py_int0 (power e))
      | _, _ => true
      end
  end.

(** The item the first loop makes of a roster entry: a placeholder, or
    the full record with the IP of the metadata file and the two queries
    to that IP. *)
Definition item_of (info_map : gmap string node_info) (e : prep_entry)
  (it : PRep) : Prop :=
  (it = {| prep := None; futures := None |}
   /\ match info_map !! resolve_addr e with
      | None => grade e = "0x1"
      | Some info => info_name info = None \/ info_ip info = None
      end)
  \/ (exists info ip ty pw,
        info_map !! resolve_addr e = Some info
        /\ info_ip info = Some ip
        /\ grade_to_type (grade e) = Ok ty
        /\ py_int0 (power e) = Ok pw
        /\ it = {| prep := Some {| p_name := name e; p_ip := Some ip;
                                   p_type := ty; p_power := pw |};
                   futures := Some (node_get_chain ip,
                                    node_get_version ip) |}).
End entry_vocabulary.

(** A roster over the stand-ins: two main nodes, a grade "0x1" entry
    without metadata, a candidate, and a main node whose version query
    fails; the items the first loop makes of it and their results after
    the aggregation. *)
Definition demo_roster : list prep_entry :=
  [demo_entry "hx01" "0x0" "alpha"; demo_entry "hx02" "0x0" "beta";
   demo_entry "hx09" "0x1" "ghost"; demo_entry "hx03" "0x2" "gamma";
   demo_entry "hx04" "0x0" "delta"].

Definition demo_items : list PRep :=
  match @build_items demo_deps demo_prep_info demo_roster with
  | Ok its => its
  | Raise _ => []
  end.

Definition demo_polled : list polled := (@aggregate demo_deps demo_items).2.

(** The third loop on these results, against a top height of 120 and
    without a baseline version: its lines and its final counters. *)
Definition demo_lines : list line :=
  (@display_loop demo_deps 120 None counters0 demo_polled).1.

Definition demo_counters : counters :=
  match (@display_loop demo_deps 120 None counters0 demo_polled).2 with
  | Ok c => c
  | Raise _ => counters0
  end.

(** The heights of the results that are not marked unreachable. *)
Fixpoint reachable_heights (ps : list polled) : list Z :=
  match ps with
  | [] => []
  | p :: ps' =>
      match chain p with
      | Some {| c_height := Some h |} => h :: reachable_heights ps'
      | _ => reachable_heights ps'
      end
  end.

(** The sentence "the top height is the maximum of the heights of the
    successfully polled nodes", a successfully polled node being one that
    does not end up marked unreachable. *)
Definition top_height_of_reachable (D : Deps) (its : list PRep) : Prop :=
  top_height (aggregate its).1
  = max_from 0 (reachable_heights (aggregate its).2).

End status.

(** * Properties of [scan] *)

Module txscan_facts.
Import txscan.

Ltac exc_simpl :=
  repeat (unfold mbind, mret, exc_bind, exc_ret in *; simpl in * ).

(** ** The model on small inputs *)

Example split_comma_items :
  split_comma "id,from,,to" = ["id"; "from"; ""; "to"]
  /\ split_comma "" = [""].
Proof. split; reflexivity. Qed.

Example py_format_cells :
  py_format (FmtDefault 8) (JStr "call") = Ok "call    "
  /\ py_format (FmtRight 8) (JStr "42") = Ok "      42"
  /\ py_format (FmtDefault 4) (JStr "transfer") = Ok "transfer"
  /\ py_format (FmtDefault 4) (JInt 7) = Ok "   7"
  /\ py_format (FmtDefault 4) JNull = Raise TypeError.
Proof. repeat split; reflexivity. Qed.

Example dict_get_on_string_data :
  dict_get (JDict (<["data" := JStr "0x6d"]> ∅)) (Keys ["data"; "method"])
    (JStr "-") = Ok (JStr "-")
  /\ dict_get (JDict (<["data" := JStr "a method"]> ∅))
       (Keys ["data"; "method"]) (JStr "-") = Raise TypeError
  /\ dict_get (JDict (<["data" := JInt 3]> ∅)) (Keys ["data"; "method"])
       (JStr "-") = Raise TypeError.
Proof. repeat split; reflexivity. Qed.

Example scan_backward_run :
  (@scan demo_util demo_service 5
     {| columns := ["type,method"]; block_arg := "10"; forward := false;
        nobase := true; receivers := []; senders := []; addresses := [];
        methods := ["transfer"]; data_types := [] |}).1 =
  [Status (BHeight 10); Status (BHeight 9);
   Header "|   Height | Type     | Method               |";
   Data "|        9 | call     | transfer             |";
   Status (BHeight 8); Status (BHeight 7); Status (BHeight 6);
   Data "|        6 | call     | transfer             |"].
Proof. vm_compute. reflexivity. Qed.

Example scan_rows_reversed :
  table_out
    (@scan demo_util demo_service 2
       {| columns := ["id,method"]; block_arg := "9"; forward := false;
          nobase := false; receivers := []; senders := []; addresses := [];
          methods := []; data_types := [] |}).1 =
  [Header ("|   Height | ID" ++ spaces 64 ++ " | Method               |");
   Data ("|        9 | 0xc" ++ spaces 63 ++ " | stake                |");
   Data ("|          | 0xb" ++ spaces 63 ++ " | transfer             |");
   Data ("|          | 0xa" ++ spaces 63 ++ " | x                    |")].
Proof. vm_compute. reflexivity. Qed.

Lemma dict_get_key (d : gmap string json) (k : string) (dflt : json) :
  dict_get (JDict d) (Key k) dflt = Ok (default dflt (d !! k)).
Proof.
  unfold dict_get. simpl. destruct (d !! k) as [v|] eqn:E; exc_simpl;
    reflexivity.
Qed.

Lemma dict_get_absent (d : gmap string json) (k : string) (ks : list string)
  (dflt : json) :
  d !! k = None -> dict_get (JDict d) (Keys (k :: ks)) dflt = Ok dflt.
Proof.
  intros E. unfold dict_get. simpl. rewrite E. reflexivity.
Qed.

Lemma dict_get_nested (d m : gmap string json) (k1 k2 : string)
  (dflt : json) :
  d !! k1 = Some (JDict m) ->
  dict_get (JDict d) (Keys [k1; k2]) dflt = Ok (default dflt (m !! k2)).
Proof.
  intros E. unfold dict_get. simpl. rewrite E. simpl.
  destruct (m !! k2) as [v|] eqn:E2; exc_simpl; reflexivity.
Qed.

Lemma merge_filters_true (filter : list tx_pred) (tx : json) :
  merge_filters filter tx = Ok true <->
  Forall (fun f => f tx = Ok true) filter.
Proof.
  induction filter as [|f fs IH]; simpl.
  - split; [constructor | reflexivity].
  - exc_simpl. destruct (f tx) as [[|]|e] eqn:E.
    + rewrite IH. split; intros Hf.
      * now constructor.
      * now inversion Hf.
    + split; [discriminate|]. intros Hf. inversion Hf. congruence.
    + split; [discriminate|]. intros Hf. inversion Hf. congruence.
Qed.

Lemma merge_filters_total (filter : list tx_pred) (tx : json) :
  Forall (fun f => is_ok (f tx) = true) filter ->
  is_ok (merge_filters filter tx) = true.
Proof.
  induction 1 as [|f fs Hf _ IH]; simpl; [reflexivity|].
  exc_simpl. destruct (f tx) as [[|]|e]; try discriminate; auto.
Qed.

Lemma mapM_raise {A B} (f : A -> exc B) (l : list A) (x : A) (e : exn) :
  x ∈ l -> f x = Raise e -> exists e', mapM f l = Raise e'.
Proof.
  intros Hin Hx. induction l as [|y l IH]; [inversion Hin|].
  simpl. exc_simpl. destruct (f y) as [b|e1] eqn:Ey; [|eauto].
  apply elem_of_cons in Hin as [->|Hin]; [congruence|].
  destruct (IH Hin) as [e' ->]. eauto.
Qed.

Lemma TX_COLUMNS_known `{Util} (x : string) :
  TX_COLUMNS !! x = None <-> x ∉ KNOWN_COLUMNS.
Proof.
  unfold TX_COLUMNS. rewrite <- not_elem_of_list_to_map. reflexivity.
Qed.

Section filters.
Context `{Util}.

(** C4: the combined filter accepts a transaction exactly when every
    enabled predicate accepts it (none enabled: every transaction is
    accepted; predicates that all answer make the combined filter
    answer).  With [--nobase --method=transfer] a transaction whose
    dataType is "base" is rejected whatever else it holds, and a
    non-base call passes exactly when its method is "transfer" (so
    "stake" does not pass). *)
Theorem merge_filters_conjunction (filter : list tx_pred) (tx : json)
  (o : options) (d m : gmap string json) (meth : string) :
  nobase o = true -> methods o = ["transfer"] ->
  receivers o = [] -> senders o = [] -> addresses o = [] ->
  data_types o = [] ->
  d !! "dataType" ≠ Some (JStr "base") ->
  d !! "data" = Some (JDict m) ->
  m !! "method" = Some (JStr meth) ->
  (merge_filters filter tx = Ok true <->
     Forall (fun f => f tx = Ok true) filter)
  /\ (Forall (fun f => is_ok (f tx) = true) filter ->
      is_ok (merge_filters filter tx) = true)
  /\ merge_filters [] tx = Ok true
  /\ exists fs, build_filters o = Ok fs
     /\ (forall b : gmap string json,
           b !! "dataType" = Some (JStr "base") ->
           merge_filters fs (JDict b) = Ok false)
     /\ merge_filters fs (JDict d) = Ok (bool_decide (meth = "transfer"))
     /\ (meth = "transfer" -> merge_filters fs (JDict d) = Ok true)
     /\ (meth = "stake" -> merge_filters fs (JDict d) = Ok false).
Proof.
  intros Hnb Hm Hr Hs Ha Hd Hnot Hdata Hmeth.
  split; [apply merge_filters_true|].
  split; [apply merge_filters_total|].
  split; [reflexivity|].
  exists [nobase_filter; method_filter ["transfer"]].
  assert (Hgo : merge_filters [nobase_filter; method_filter ["transfer"]]
                  (JDict d) = Ok (bool_decide (meth = "transfer"))).
  { simpl. unfold nobase_filter, method_filter.
    rewrite dict_get_key, (dict_get_nested d m) by exact Hdata.
    rewrite Hmeth. exc_simpl.
    assert (Hns : is_str "base" (default JNull (d !! "dataType")) = false).
    { destruct (d !! "dataType") as [[| | |s| |]|] eqn:E; simpl; try reflexivity.
      apply bool_decide_eq_false_2. intros ->. now apply Hnot. }
    rewrite Hns. simpl.
    destruct (decide (meth = "transfer")) as [->|Hne].
    - reflexivity.
    - rewrite !bool_decide_eq_false_2; [reflexivity|exact Hne|].
      intros Hin. apply list_elem_of_singleton in Hin. contradiction. }
  repeat split.
  - unfold build_filters. rewrite Hnb, Hm, Hr, Hs, Ha, Hd. reflexivity.
  - intros b Hb. simpl. unfold nobase_filter.
    rewrite dict_get_key, Hb. reflexivity.
  - exact Hgo.
  - intros ->. exact Hgo.
  - intros ->. exact Hgo.
Qed.

(** C5 (the code departs from it): [--method] is the one filter option
    whose values are not split on commas: whatever values are given, the
    method filter is built over them as they are, where the sibling
    [--data_type] filter is built over their expansion.  Given
    [--method transfer,stake], a call of method "transfer" is rejected,
    because the filter looks for the method among the single item
    "transfer,stake"; [--data_type call,deploy] does accept a transaction
    of dataType "call". *)
Theorem method_option_not_comma_expanded :
  (forall m ms,
      build_filters
        {| columns := []; block_arg := "latest"; forward := false;
           nobase := false; receivers := []; senders := [];
           addresses := []; methods := m :: ms; data_types := [] |}
      = Ok [method_filter (m :: ms)])
  /\ (forall t ts,
        build_filters
          {| columns := []; block_arg := "latest"; forward := false;
             nobase := false; receivers := []; senders := [];
             addresses := []; methods := []; data_types := t :: ts |}
        = Ok [data_type_filter (expand_comma (t :: ts))])
  /\ merge_filters [method_filter ["transfer,stake"]]
       (demo_tx "0xb" (Some "call") "transfer") = Ok false
  /\ merge_filters [data_type_filter (expand_comma ["call,deploy"])]
       (demo_tx "0xb" (Some "call") "transfer") = Ok true
  /\ expand_comma ["transfer,stake"] = ["transfer"; "stake"].
Proof.
  split; [|split; [|split; [|split]]].
  - intros m ms. reflexivity.
  - intros t ts. reflexivity.
  - vm_compute. reflexivity.
  - vm_compute. reflexivity.
  - reflexivity.
Qed.
End filters.

Lemma merge_filters_conjunction_witness :
  exists fs,
    @build_filters demo_util
      {| columns := []; block_arg := "latest"; forward := false;
         nobase := true; receivers := []; senders := []; addresses := [];
         methods := ["transfer"]; data_types := [] |} = Ok fs
    /\ merge_filters fs
         (JDict (<["dataType" := JStr "call"]>
                   (<["data" := JDict (<["method" := JStr "transfer"]> ∅)]>
                      ∅))) = Ok true.
Proof.
  assert (Hnot : (<["dataType" := JStr "call"]>
                    (<["data" := JDict (<["method" := JStr "transfer"]> ∅)]>
                       ∅) : gmap string json) !! "dataType"
                 ≠ Some (JStr "base")).
  { intros Hx. vm_compute in Hx. discriminate Hx. }
  destruct (@merge_filters_conjunction demo_util [] JNull
              {| columns := []; block_arg := "latest"; forward := false;
                 nobase := true; receivers := []; senders := [];
                 addresses := []; methods := ["transfer"];
                 data_types := [] |}
              (<["dataType" := JStr "call"]>
                 (<["data" := JDict (<["method" := JStr "transfer"]> ∅)]> ∅))
              (<["method" := JStr "transfer"]> ∅) "transfer"
              eq_refl eq_refl eq_refl eq_refl eq_refl eq_refl
              Hnot eq_refl eq_refl)
    as (_ & _ & _ & fs & Hfs & _ & _ & Ht & _).
  exists fs. split; [exact Hfs|]. apply Ht. reflexivity.
Defined.

Section columns_facts.
Context `{Util}.

Lemma TX_COLUMNS_cases (nm : string) (c : Column) :
  TX_COLUMNS !! nm = Some c ->
  (nm, c) ∈ [
    ("id", mkColumn (fun title tx => py_getitem tx "txHash") 66 None "ID");
    ("from", mkColumn (fun title tx => dict_get tx (Key "from") (JStr "-"))
               FULL_ADDR_LEN None "From");
    ("from...", mkColumn (fun title tx =>
                  v ← dict_get tx (Key "from") (JStr "-"); shorten_address v)
                  SHORT_ADDR_LEN None "From");
    ("type", mkColumn (fun title tx =>
               dict_get tx (Key "dataType") (JStr "transfer")) 8 None "Type");
    ("method", mkColumn (fun title tx =>
                 v ← dict_get tx (Keys ["data"; "method"]) (JStr "-");
                 shorten v 20 None) 20 None "Method");
    ("to", mkColumn (fun title tx => dict_get tx (Key "to") (JStr "-"))
             FULL_ADDR_LEN None "To");
    ("to...", mkColumn (fun title tx =>
                v ← dict_get tx (Key "to") (JStr "-"); shorten_address v)
                SHORT_ADDR_LEN None "To");
    ("value", mkColumn (fun title tx =>
                v ← dict_get tx (Key "value") (JStr "0"); format_value v)
                20 (Some (FmtRight 20)) "Value")
  ].
Proof. apply elem_of_list_to_map_2. Qed.

Ltac column_cases H :=
  apply TX_COLUMNS_cases in H;
  repeat (apply elem_of_cons in H as [H|H]; [injection H as -> ->|]);
  [..|inversion H].

Ltac no_member H :=
  repeat (apply elem_of_cons in H as [H|H]; [discriminate H|]);
  inversion H.

(** No column of the table looks at the height label. *)
Lemma get_value_title (nm : string) (c : Column) (t1 t2 : string)
  (tx : json) :
  TX_COLUMNS !! nm = Some c -> get_value c t1 tx = get_value c t2 tx.
Proof. intros Hc. column_cases Hc; reflexivity. Qed.

Lemma method_absent (d : gmap string json) (dflt : json) :
  field_absent "method" d ->
  dict_get (JDict d) (Keys ["data"; "method"]) dflt = Ok dflt.
Proof.
  intros [Hd|[_ [m [Hd Hm]]]].
  - now apply dict_get_absent.
  - rewrite (dict_get_nested d m) by exact Hd. now rewrite Hm.
Qed.

(** C6, as the code has it: when the field a column extracts is absent,
    the columns from, to, from..., to... and method fall back to a dash
    (the last three through [shorten], which is taken to leave a string
    as short as "-" alone), and the dash is printed left-aligned in the
    column's width; the type column falls back to "transfer", the value
    column to the formatted amount "0", and the id column has no
    fallback: without txHash the lookup raises KeyError. *)
Theorem absent_field_fallbacks (nm : string) (c : Column) (title : string)
  (d : gmap string json) :
  shorten (JStr "-") SHORT_ADDR_LEN (Some MIDDLE) = Ok (JStr "-") ->
  shorten (JStr "-") 20 None = Ok (JStr "-") ->
  TX_COLUMNS !! nm = Some c ->
  field_absent nm d ->
  get_value c title (JDict d) =
    (if bool_decide (nm = "id") then Raise KeyError
     else if bool_decide (nm = "type") then Ok (JStr "transfer")
     else if bool_decide (nm = "value") then format_value (JStr "0")
     else Ok (JStr "-"))
  /\ (nm ∈ ["from"; "from..."; "method"; "to"; "to..."] ->
      get_value c title (JDict d) = Ok (JStr "-")
      /\ py_format (format c) (JStr "-") = Ok (ljust "-" (size c))).
Proof.
  intros Hs1 Hs2 Hc Habs.
  assert (Hkey : nm <> "method" -> d !! column_key nm = None).
  { intros Hne. destruct Habs as [Hd|[-> _]]; [exact Hd|contradiction]. }
  column_cases Hc; simpl.
  - assert (Hk : d !! "txHash" = None) by exact (Hkey ltac:(discriminate)).
    rewrite Hk. split; [reflexivity|]. intros Hin. no_member Hin.
  - assert (Hk : d !! "from" = None) by exact (Hkey ltac:(discriminate)).
    rewrite dict_get_key, Hk. now split.
  - assert (Hk : d !! "from" = None) by exact (Hkey ltac:(discriminate)).
    rewrite dict_get_key, Hk. simpl.
    unfold shorten_address. rewrite Hs1. now split.
  - assert (Hk : d !! "dataType" = None)
      by exact (Hkey ltac:(discriminate)).
    rewrite dict_get_key, Hk. split; [reflexivity|].
    intros Hin. no_member Hin.
  - rewrite method_absent by exact Habs. simpl. rewrite Hs2. now split.
  - assert (Hk : d !! "to" = None) by exact (Hkey ltac:(discriminate)).
    rewrite dict_get_key, Hk. now split.
  - assert (Hk : d !! "to" = None) by exact (Hkey ltac:(discriminate)).
    rewrite dict_get_key, Hk. simpl.
    unfold shorten_address. rewrite Hs1. now split.
  - assert (Hk : d !! "value" = None) by exact (Hkey ltac:(discriminate)).
    rewrite dict_get_key, Hk. split; [reflexivity|].
    intros Hin. no_member Hin.
Qed.
End columns_facts.

(** C6, as the spec words it, does not hold: under no implementation of
    the helpers does every column render an absent field as a dash.  On
    the empty record the type column gives "transfer". *)
Lemma type_column_absent_not_dash :
  (~ exists U : Util, absent_field_renders_dash U)
  /\ (c ← @TX_COLUMNS demo_util !! "type"; Some (get_value c "" (JDict ∅)))
     = Some (Ok (JStr "transfer")).
Proof.
  split; [|reflexivity].
  intros [U HU].
  specialize (HU "type"
                (mkColumn (fun title tx =>
                   dict_get tx (Key "dataType") (JStr "transfer")) 8 None "Type")
                "" ∅ eq_refl (or_introl eq_refl)).
  discriminate HU.
Qed.

Lemma absent_field_fallbacks_witness :
  get_value (mkColumn (fun title tx => dict_get tx (Key "to") (JStr "-"))
               FULL_ADDR_LEN None "To") "7" (JDict ∅) = Ok (JStr "-").
Proof.
  pose proof (@absent_field_fallbacks demo_util "to"
                (mkColumn (fun title tx => dict_get tx (Key "to") (JStr "-"))
                   FULL_ADDR_LEN None "To") "7" ∅
                eq_refl eq_refl eq_refl (or_introl eq_refl)) as [_ Hto].
  apply Hto. repeat constructor.
Defined.

Section setup_facts.
Context `{Util} `{Service}.

Lemma build_printer_unknown (o : options) (c : string) :
  columns o <> [] -> c ∈ expand_comma (columns o) -> c ∉ KNOWN_COLUMNS ->
  build_printer o = Raise KeyError.
Proof.
  intros Hne Hin Hunk. unfold build_printer.
  destruct (columns o) as [|c0 cs] eqn:Ecols; [contradiction|].
  rewrite bool_decide_eq_false_2 by discriminate.
  assert (Hl : lookup_column c = Raise KeyError).
  { unfold lookup_column. apply TX_COLUMNS_known in Hunk. now rewrite Hunk. }
  revert Hin. generalize (expand_comma (c0 :: cs)) as l.
  induction l as [|y l IH]; intros Hin; [inversion Hin|].
  exc_simpl. destruct (lookup_column y) as [cy|e] eqn:Ey.
  - apply elem_of_cons in Hin as [->|Hin]; [congruence|].
    specialize (IH Hin).
    destruct (mapM lookup_column l) as [cl|e']; [discriminate|].
    simpl in IH. congruence.
  - unfold lookup_column in Ey. destruct (TX_COLUMNS !! y); congruence.
Qed.

(** C10: a [--column] value that, after the split on commas, is not a
    known column name makes [scan] raise before the loop is entered:
    nothing is printed, so no block is fetched (no status line) and no
    row appears, however long the run. *)
Theorem scan_unknown_column (o : options) (c : string) (fuel : nat) :
  columns o <> [] -> c ∈ expand_comma (columns o) -> c ∉ KNOWN_COLUMNS ->
  exists e, scan fuel o = ([], Raise e)
            /\ fetched (scan fuel o).1 = []
            /\ table_out (scan fuel o).1 = [].
Proof.
  intros Hne Hin Hunk.
  assert (Hs : exists e, scan_setup o = Raise e).
  { unfold scan_setup. destruct (build_filters o) as [fs|e]; [|eauto].
    exc_simpl. rewrite (build_printer_unknown o c) by assumption. eauto. }
  destruct Hs as [e He]. exists e.
  unfold scan. rewrite He. simpl. auto.
Qed.
End setup_facts.

Lemma scan_unknown_column_witness :
  exists e,
    @scan demo_util demo_service 5
      {| columns := ["id,hash"]; block_arg := "10"; forward := true;
         nobase := false; receivers := []; senders := []; addresses := [];
         methods := []; data_types := [] |} = ([], Raise e).
Proof.
  destruct (@scan_unknown_column demo_util demo_service
              {| columns := ["id,hash"]; block_arg := "10"; forward := true;
                 nobase := false; receivers := []; senders := [];
                 addresses := []; methods := []; data_types := [] |}
              "hash" 5) as [e [He _]].
  - discriminate.
  - vm_compute. apply list_elem_of_In. simpl. auto.
  - intros Hin. apply list_elem_of_In in Hin. simpl in Hin.
    repeat destruct Hin as [Hin|Hin]; try discriminate Hin. exact Hin.
  - exists e. exact He.
Defined.

(** ** The loop *)

Lemma fetched_app (o1 o2 : list out) :
  fetched (o1 ++ o2) = fetched o1 ++ fetched o2.
Proof.
  induction o1 as [|[i|l|l] o1 IH]; simpl; [reflexivity| |assumption..].
  now rewrite IH.
Qed.

Lemma table_out_app (o1 o2 : list out) :
  table_out (o1 ++ o2) = table_out o1 ++ table_out o2.
Proof.
  induction o1 as [|[i|l|l] o1 IH]; simpl; [reflexivity|assumption|..];
    now rewrite IH.
Qed.

Lemma fetched_data (ls : list string) : fetched (map Data ls) = [].
Proof. induction ls; simpl; auto. Qed.

Lemma table_out_data (ls : list string) :
  table_out (map Data ls) = map Data ls.
Proof. induction ls; simpl; congruence. Qed.

Lemma py_filter_accepts (f : tx_pred) (l txs : list json) :
  py_filter f l = Ok txs -> txs = List.filter (accepts f) l.
Proof.
  revert txs. induction l as [|tx l IH]; simpl; intros txs Hf.
  - now injection Hf as <-.
  - exc_simpl. unfold accepts at 1.
    destruct (f tx) as [b|e]; [|discriminate].
    destruct (py_filter f l) as [rest|e]; [|discriminate].
    injection Hf as <-. rewrite (IH rest eq_refl). now destruct b.
Qed.

Lemma py_filter_total (f : tx_pred) (l : list json) :
  (forall tx, tx ∈ l -> is_ok (f tx) = true) ->
  exists txs, py_filter f l = Ok txs /\ (forall tx, tx ∈ txs -> tx ∈ l).
Proof.
  induction l as [|tx l IH]; intros Hok; simpl.
  - exists []. split; [reflexivity|]. intros tx Hin. inversion Hin.
  - destruct IH as [rest [Hr Hsub]].
    { intros x Hx. apply Hok. now apply elem_of_cons; right. }
    pose proof (Hok tx ltac:(apply elem_of_cons; now left)) as Htx.
    exc_simpl. destruct (f tx) as [b|e]; [|discriminate]. rewrite Hr.
    eexists. split; [reflexivity|].
    intros x Hx. destruct b.
    + apply elem_of_cons in Hx as [->|Hx]; apply elem_of_cons; auto.
    + apply elem_of_cons; auto.
Qed.

(** What [show_txs] prints is rows only, whether or not it ends well. *)
Lemma show_txs_loop_rows (printer : RowPrinter) (title : string)
  (txs : list json) :
  exists ls, (show_txs_loop printer title txs).1 = map Data ls.
Proof.
  revert title. induction txs as [|tx txs IH]; intros title; simpl.
  - now exists [].
  - unfold print_data. exc_simpl. unfold io_bind, lift, emit. simpl.
    destruct (row_line printer title tx) as [line|e]; simpl.
    + destruct (IH EmptyString) as [ls Hls].
      destruct (show_txs_loop printer EmptyString txs) as [o r].
      simpl in *. subst o. now exists (line :: ls).
    + now exists [].
Qed.

Lemma show_txs_loop_total (printer : RowPrinter) (title : string)
  (txs : list json) :
  (forall tx, tx ∈ txs -> forall t, is_ok (row_line printer t tx) = true) ->
  is_ok (show_txs_loop printer title txs).2 = true.
Proof.
  revert title. induction txs as [|tx txs IH]; intros title Hok; simpl.
  - reflexivity.
  - unfold print_data. exc_simpl. unfold io_bind, lift, emit. simpl.
    pose proof (Hok tx ltac:(apply elem_of_cons; now left) title) as Htx.
    destruct (row_line printer title tx) as [line|e]; [|discriminate].
    simpl. specialize (IH EmptyString).
    destruct (show_txs_loop printer EmptyString txs) as [o r]. simpl in *.
    apply IH. intros x Hx. apply Hok. apply elem_of_cons; now right.
Qed.

Section loop_facts.
Context `{Util} `{Service}.

(** One turn of the loop, by cases on the fetch and on the filter. *)
Lemma scan_iter_eq (fwd : bool) (f : tx_pred) (printer : RowPrinter)
  (st : loop_state) :
  scan_iter fwd f printer st =
  match get_block (id st) with
  | Raise e => ([Status (id st)], Raise e)
  | Ok blk =>
      match py_filter f (confirmed_transaction_list blk) with
      | Raise e => ([Status (id st)], Raise e)
      | Ok [] => ([Status (id st)], Ok (next_state fwd blk (sep_print st)))
      | Ok (tx :: txs) =>
          let shown := show_txs printer (height blk) (tx :: txs)
                         (negb fwd) in
          (Status (id st)
             :: (if sep_print st then [] else [Header (rp_header printer)])
             ++ shown.1,
           match shown.2 with
           | Ok _ => Ok (next_state fwd blk true)
           | Raise e => Raise e
           end)
      end
  end.
Proof.
  unfold scan_iter, next_state.
  unfold mbind, mret, io_bind, io_ret, lift, emit, print_header. simpl.
  destruct (get_block (id st)) as [blk|e]; [|reflexivity]. simpl.
  destruct (py_filter f (confirmed_transaction_list blk)) as [[|tx txs]|e];
    [reflexivity| |reflexivity].
  simpl.
  destruct (show_txs printer (height blk) (tx :: txs) (negb fwd))
    as [o [u|e]]; destruct (sep_print st); simpl;
    rewrite ?app_nil_r; reflexivity.
Qed.

Lemma scan_loop_S (fuel : nat) (fwd : bool) (f : tx_pred)
  (printer : RowPrinter) (st : loop_state) :
  scan_loop (S fuel) fwd f printer st =
  match scan_iter fwd f printer st with
  | (o, Ok st') =>
      (o ++ (scan_loop fuel fwd f printer st').1,
       (scan_loop fuel fwd f printer st').2)
  | (o, Raise e) => (o, Raise e)
  end.
Proof.
  simpl. unfold mbind, io_bind.
  destruct (scan_iter fwd f printer st) as [o [st'|e]]; [|reflexivity].
  now destruct (scan_loop fuel fwd f printer st').
Qed.

(** The shape of what one turn prints. *)
Lemma scan_iter_shape (fwd : bool) (f : tx_pred) (printer : RowPrinter)
  (st : loop_state) :
  exists ls,
    fetched (scan_iter fwd f printer st).1 = [id st]
    /\ ((table_out (scan_iter fwd f printer st).1 = []
         /\ forall st', (scan_iter fwd f printer st).2 = Ok st' ->
                        sep_print st' = sep_print st)
        \/ (table_out (scan_iter fwd f printer st).1 =
              (if sep_print st then [] else [Header (rp_header printer)])
                ++ map Data ls
            /\ forall st', (scan_iter fwd f printer st).2 = Ok st' ->
                           sep_print st' = true)).
Proof.
  rewrite scan_iter_eq.
  destruct (get_block (id st)) as [blk|e];
    [|exists []; split; [reflexivity|left; split; [reflexivity|discriminate]]].
  destruct (py_filter f (confirmed_transaction_list blk)) as [[|tx txs]|e].
  - exists []. split; [reflexivity|]. left. split; [reflexivity|].
    intros st' Hst. now injection Hst as <-.
  - unfold show_txs.
    destruct (show_txs_loop_rows printer (py_str_int (height blk))
                (if negb fwd then rev (tx :: txs) else tx :: txs))
      as [ls Hls].
    exists ls. cbn zeta. cbn [fst snd]. rewrite Hls. split.
    + cbn [fetched]. rewrite fetched_app, fetched_data.
      now destruct (sep_print st).
    + right. split.
      * cbn [table_out]. rewrite table_out_app, table_out_data.
        now destruct (sep_print st).
      * intros st' Hst.
        destruct (show_txs_loop _ _ _).2; [|discriminate].
        now injection Hst as <-.
  - exists []. split; [reflexivity|]. left. split; [reflexivity|discriminate].
Qed.

(** The table of a whole run: nothing, or the header once and then
    rows only. *)
Lemma scan_loop_table (fuel : nat) (fwd : bool) (f : tx_pred)
  (printer : RowPrinter) (st : loop_state) :
  let run := scan_loop fuel fwd f printer st in
  exists ls,
    if sep_print st then
      table_out run.1 = map Data ls
      /\ forall st', run.2 = Ok st' -> sep_print st' = true
    else
      (table_out run.1 = [] /\ ls = []
       /\ forall st', run.2 = Ok st' -> sep_print st' = false)
      \/ (table_out run.1 = Header (rp_header printer) :: map Data ls
          /\ forall st', run.2 = Ok st' -> sep_print st' = true).
Proof.
  revert st. induction fuel as [|fuel IH]; intros st run; subst run.
  - exists []. simpl. destruct (sep_print st) eqn:E.
    + split; [reflexivity|]. intros st' Hst. injection Hst as <-. exact E.
    + left. repeat split. intros st' Hst. injection Hst as <-. exact E.
  - rewrite scan_loop_S.
    destruct (scan_iter_shape fwd f printer st) as [ls1 [_ Hshape]].
    destruct (scan_iter fwd f printer st) as [o1 [st1|e]]; cbn [fst snd] in *.
    + destruct (IH st1) as [ls2 IH2]. cbn zeta in IH2.
      rewrite table_out_app.
      destruct Hshape as [[Ht Hsep]|[Ht Hsep]]; rewrite Ht;
        specialize (Hsep st1 eq_refl).
      * rewrite Hsep in IH2. exists ls2. exact IH2.
      * rewrite Hsep in IH2. destruct IH2 as [Ht2 Hs2]. rewrite Ht2.
        exists (ls1 ++ ls2). destruct (sep_print st).
        -- split; [|exact Hs2]. now rewrite map_app.
        -- right. split; [|exact Hs2]. simpl. now rewrite map_app.
    + destruct Hshape as [[Ht _]|[Ht _]]; rewrite Ht.
      * exists []. destruct (sep_print st).
        -- split; [reflexivity|discriminate].
        -- left. repeat split. discriminate.
      * exists ls1. destruct (sep_print st).
        -- split; [reflexivity|discriminate].
        -- right. split; [reflexivity|discriminate].
Qed.
End loop_facts.

Lemma mapM_length {A B} (f : A -> exc B) (l : list A) (k : list B) :
  mapM f l = Ok k -> length k = length l.
Proof.
  revert k. induction l as [|x l IH]; simpl; intros k Hk.
  - now injection Hk as <-.
  - exc_simpl. destruct (f x) as [y|e]; [|discriminate].
    destruct (mapM f l) as [k'|e]; [|discriminate].
    injection Hk as <-. simpl. now rewrite (IH k' eq_refl).
Qed.

Section rows_facts.
Context `{Util} `{Service}.

Lemma mapM_lookup_column (names : list string) (cols : list Column) :
  mapM lookup_column names = Ok cols -> Forall table_column cols.
Proof.
  revert cols. induction names as [|x names IH]; simpl; intros cols Hm.
  - injection Hm as <-. constructor.
  - exc_simpl. unfold lookup_column at 1 in Hm.
    destruct (TX_COLUMNS !! x) as [c|] eqn:Ec; [|discriminate].
    destruct (mapM lookup_column names) as [cs|e]; [|discriminate].
    injection Hm as <-. constructor; [now exists x|now apply IH].
Qed.

Lemma build_printer_columns (o : options) (printer : RowPrinter) :
  build_printer o = Ok printer ->
  exists cols, printer = new_RowPrinter (TX_HEIGHT_COLUMN :: cols)
               /\ Forall table_column cols.
Proof.
  unfold build_printer. intros Hb. exc_simpl.
  destruct (mapM lookup_column _) as [cols|e] eqn:Em; [|discriminate].
  injection Hb as <-. exists cols. split; [reflexivity|].
  eapply mapM_lookup_column, Em.
Qed.

Lemma get_values_title (cols : list Column) (t1 t2 : string) (tx : json) :
  Forall table_column cols ->
  get_values cols t1 tx = get_values cols t2 tx.
Proof.
  induction 1 as [|c cols [nm Hc] _ IH]; simpl; [reflexivity|].
  now rewrite (get_value_title nm c t1 t2 tx Hc), IH.
Qed.

(** A row of the table [scan] builds: the label, right-aligned in
    width 8, then the cells of the transaction. *)
Lemma row_line_built (cols : list Column) (title : string) (tx : json) :
  Forall table_column cols ->
  row_line (new_RowPrinter (TX_HEIGHT_COLUMN :: cols)) title tx =
  (cs ← tx_cells cols tx; Ok (table_line (rjust title 8 :: cs))).
Proof.
  intros Hc. unfold row_line, tx_cells. simpl. exc_simpl.
  rewrite (get_values_title cols title EmptyString tx Hc).
  destruct (get_values cols EmptyString tx) as [vs|e]; [|reflexivity].
  now destruct (format_cells (map format cols) vs).
Qed.

Lemma show_txs_loop_built (cols : list Column) (title : string)
  (txs : list json) (cellss : list (list string)) :
  Forall table_column cols ->
  mapM (tx_cells cols) txs = Ok cellss ->
  show_txs_loop (new_RowPrinter (TX_HEIGHT_COLUMN :: cols)) title txs =
  (map Data (zip_with (fun t cs => table_line (rjust t 8 :: cs))
               (titles title (length txs)) cellss), Ok tt).
Proof.
  intros Hc. revert title cellss.
  induction txs as [|tx txs IH]; intros title cellss Hm.
  - reflexivity.
  - cbn [show_txs_loop]. unfold print_data.
    rewrite (row_line_built cols title tx Hc).
    simpl in Hm. exc_simpl.
    destruct (tx_cells cols tx) as [cs|e]; [|discriminate].
    destruct (mapM (tx_cells cols) txs) as [css|e] eqn:Em; [|discriminate].
    injection Hm as <-.
    unfold io_bind, lift, emit. simpl.
    rewrite (IH EmptyString css eq_refl). simpl.
    destruct txs; reflexivity.
Qed.

Lemma block_rows_length (cols : list Column) (h : Z) (txs : list json)
  (lines : list string) :
  block_rows cols h txs = Ok lines -> length lines = length txs.
Proof.
  unfold block_rows. intros Hb. exc_simpl.
  destruct (mapM (tx_cells cols) txs) as [css|e] eqn:Em; [|discriminate].
  injection Hb as <-. apply mapM_length in Em.
  rewrite length_zip_with, Em.
  destruct txs; simpl; [reflexivity|]. rewrite repeat_length. lia.
Qed.
End rows_facts.

Section scan_facts.
Context `{Util} `{Service}.

Lemma scan_iter_next (fwd : bool) (f : tx_pred) (printer : RowPrinter)
  (st st' : loop_state) :
  (scan_iter fwd f printer st).2 = Ok st' ->
  exists blk, get_block (id st) = Ok blk
              /\ id st' = BHeight (if fwd then height blk + 1
                                   else height blk - 1).
Proof.
  rewrite scan_iter_eq. destruct (get_block (id st)) as [blk|e];
    [|discriminate].
  intros Hst. exists blk. split; [reflexivity|].
  destruct (py_filter f (confirmed_transaction_list blk)) as [[|tx txs]|e];
    cbn [snd] in Hst; [| |discriminate].
  - now injection Hst as <-.
  - cbn zeta in Hst. destruct (show_txs _ _ _ _).2; [|discriminate].
    now injection Hst as <-.
Qed.

Lemma scan_iter_total (fwd : bool) (f : tx_pred) (printer : RowPrinter)
  (st : loop_state) (blk : block) :
  get_block (id st) = Ok blk ->
  (forall tx, tx ∈ confirmed_transaction_list blk ->
              is_ok (f tx) = true
              /\ forall t, is_ok (row_line printer t tx) = true) ->
  is_ok (scan_iter fwd f printer st).2 = true.
Proof.
  intros Hb Hok. rewrite scan_iter_eq, Hb.
  destruct (py_filter_total f (confirmed_transaction_list blk))
    as [txs [Hf Hsub]]; [intros tx Htx; now apply Hok|].
  rewrite Hf. destruct txs as [|tx txs]; [reflexivity|].
  cbn zeta. cbn [snd]. unfold show_txs.
  pose proof (show_txs_loop_total printer (py_str_int (height blk))
                (if negb fwd then rev (tx :: txs) else tx :: txs)) as Ht.
  destruct (show_txs_loop _ _ _).2; [reflexivity|].
  apply Ht. intros x Hx t. apply Hok, Hsub.
  destruct (negb fwd); [|exact Hx].
  apply list_elem_of_In. apply in_rev. now apply list_elem_of_In.
Qed.

Section in_order.
Variables (fwd : bool) (f : tx_pred) (printer : RowPrinter).
Hypothesis fetch_height :
  forall h blk, get_block (BHeight h) = Ok blk -> height blk = h.

Lemma scan_loop_fetched (fuel : nat) (s : Z) (sp : bool) :
  let run := scan_loop fuel fwd f printer
               {| id := BHeight s; sep_print := sp |} in
  (forall (i : nat) c, fetched run.1 !! i = Some c ->
                       c = BHeight (s + (if fwd then 1 else -1) * Z.of_nat i))
  /\ ((0 < fuel)%nat -> fetched run.1 !! 0%nat = Some (BHeight s))
  /\ (forall st, run.2 = Ok st ->
                 length (fetched run.1) = fuel
                 /\ id st = BHeight (s + (if fwd then 1 else -1) * Z.of_nat fuel)).
Proof.
  revert s sp. induction fuel as [|fuel IH]; intros s sp run; subst run.
  - simpl. split; [|split].
    + intros i c Hi. destruct i; discriminate.
    + lia.
    + intros st Hst. injection Hst as <-. simpl. split; [reflexivity|].
      f_equal. lia.
  - rewrite scan_loop_S.
    destruct (scan_iter_shape fwd f printer
                {| id := BHeight s; sep_print := sp |}) as [ls [Hf _]].
    pose proof (scan_iter_next fwd f printer
                  {| id := BHeight s; sep_print := sp |}) as Hn.
    destruct (scan_iter fwd f printer _) as [o1 [st1|e]];
      cbn [fst snd] in *.
    + destruct (Hn st1 eq_refl) as [blk [Hb Hid]].
      simpl in Hb. rewrite (fetch_height s blk Hb) in Hid.
      assert (Hid' : id st1 = BHeight (s + (if fwd then 1 else -1))).
      { rewrite Hid. destruct fwd; f_equal; lia. }
      destruct st1 as [i1 sp1]. simpl in Hid'. subst i1.
      destruct (IH (s + (if fwd then 1 else -1)) sp1) as [IHa [IHb IHc]].
      rewrite fetched_app, Hf. simpl. split; [|split].
      * intros [|i] c Hi; simpl in Hi.
        -- injection Hi as <-. f_equal. lia.
        -- rewrite (IHa i c Hi). f_equal. lia.
      * reflexivity.
      * intros st Hst. destruct (IHc st Hst) as [Hlen ->].
        split; [now rewrite Hlen|]. f_equal. lia.
    + rewrite Hf. split; [|split]; try discriminate.
      * intros [|i] c Hi; simpl in Hi; [|destruct i; discriminate].
        injection Hi as <-. f_equal. lia.
      * reflexivity.
Qed.

Lemma scan_loop_total (fuel : nat) (s : Z) (sp : bool) :
  (forall h, is_ok (get_block (BHeight h)) = true) ->
  (forall i blk tx, get_block i = Ok blk ->
                    tx ∈ confirmed_transaction_list blk ->
                    is_ok (f tx) = true
                    /\ forall t, is_ok (row_line printer t tx) = true) ->
  is_ok (scan_loop fuel fwd f printer
           {| id := BHeight s; sep_print := sp |}).2 = true.
Proof.
  intros Hget Hok. revert s sp. induction fuel as [|fuel IH]; intros s sp.
  - reflexivity.
  - rewrite scan_loop_S.
    pose proof (Hget s) as Hs.
    destruct (get_block (BHeight s)) as [blk|e] eqn:Hb; [|discriminate].
    pose proof (scan_iter_total fwd f printer
                  {| id := BHeight s; sep_print := sp |} blk Hb
                  (fun tx Htx => Hok _ blk tx Hb Htx)) as Ht.
    pose proof (scan_iter_next fwd f printer
                  {| id := BHeight s; sep_print := sp |}) as Hn.
    destruct (scan_iter fwd f printer _) as [o1 [st1|e]];
      cbn [fst snd] in *; [|discriminate].
    destruct (Hn st1 eq_refl) as [blk1 [_ Hid]].
    destruct st1 as [i1 sp1]. simpl in Hid. subst i1. apply IH.
Qed.
End in_order.

(** C7: when a fetch at a height returns the block of that height, the
    cursors the loop fetches, in order, are the resolved start [s], then
    [s+1], [s+2], ... under [--forward] and [s-1], [s-2], ... otherwise:
    after the block of height [h] the next cursor is [h+1], respectively
    [h-1].  The first fetch is the start itself, and a run of [fuel]
    turns that has not raised has made [fuel] fetches.  The run does not
    raise when every fetch answers and the filter and the columns are
    defined on every transaction of the chain. *)
Theorem scan_visits_in_order (o : options) (fuel : nat) (s : Z)
  (f : tx_pred) (printer : RowPrinter) (st0 : loop_state) :
  (forall h blk, get_block (BHeight h) = Ok blk -> height blk = h) ->
  scan_setup o = Ok (f, printer, st0) ->
  id st0 = BHeight s ->
  (forall (i : nat) c, fetched (scan fuel o).1 !! i = Some c ->
     c = BHeight (if forward o then s + Z.of_nat i else s - Z.of_nat i))
  /\ (forall (i : nat) h c,
        fetched (scan fuel o).1 !! i = Some (BHeight h) ->
        fetched (scan fuel o).1 !! S i = Some c ->
        c = BHeight (if forward o then h + 1 else h - 1))
  /\ ((0 < fuel)%nat ->
      fetched (scan fuel o).1 !! 0%nat = Some (BHeight s))
  /\ (forall st, (scan fuel o).2 = Ok st ->
        length (fetched (scan fuel o).1) = fuel
        /\ id st = BHeight (if forward o then s + Z.of_nat fuel
                            else s - Z.of_nat fuel))
  /\ ((forall h, is_ok (get_block (BHeight h)) = true) ->
      (forall i blk tx, get_block i = Ok blk ->
         tx ∈ confirmed_transaction_list blk ->
         is_ok (f tx) = true
         /\ forall t, is_ok (row_line printer t tx) = true) ->
      is_ok (scan fuel o).2 = true).
Proof.
  intros Hfetch Hsetup Hid.
  assert (Hscan : scan fuel o =
                  scan_loop fuel (forward o) f printer
                    {| id := BHeight s; sep_print := false |}).
  { unfold scan. rewrite Hsetup. unfold mbind, io_bind, lift.
    unfold scan_setup in Hsetup. exc_simpl.
    destruct (build_filters o); [|discriminate].
    destruct (build_printer o); [|discriminate].
    destruct (ensure_block (block_arg o)); [|discriminate].
    injection Hsetup as <- <- <-. simpl in Hid. subst.
    now destruct (scan_loop fuel (forward o) _ _ _). }
  rewrite Hscan.
  destruct (scan_loop_fetched (forward o) f printer Hfetch fuel s false)
    as [Ha [Hb Hc]].
  assert (Hdir : forall k : Z,
             s + (if forward o then 1 else -1) * k =
             if forward o then s + k else s - k).
  { intros k. destruct (forward o); lia. }
  split; [|split; [|split; [|split]]].
  - intros i c Hi. rewrite (Ha i c Hi). f_equal. apply Hdir.
  - intros i h c Hi HSi. apply Ha in Hi. apply Ha in HSi.
    injection Hi as ->. rewrite HSi. f_equal.
    destruct (forward o); lia.
  - exact Hb.
  - intros st Hst. destruct (Hc st Hst) as [Hlen ->].
    split; [exact Hlen|]. f_equal. apply Hdir.
  - now apply scan_loop_total.
Qed.
End scan_facts.

Section block_facts.
Context `{Util} `{Service}.

Lemma scan_setup_inv (o : options) (f : tx_pred) (printer : RowPrinter)
  (st0 : loop_state) :
  scan_setup o = Ok (f, printer, st0) ->
  (exists fs, build_filters o = Ok fs /\ f = merge_filters fs)
  /\ build_printer o = Ok printer
  /\ ensure_block (block_arg o) = Ok (id st0)
  /\ sep_print st0 = false
  /\ forall fuel, scan fuel o = scan_loop fuel (forward o) f printer st0.
Proof.
  intros Hsetup.
  assert (Hscan : forall fuel,
             scan fuel o = scan_loop fuel (forward o) f printer st0).
  { intros fuel. unfold scan. rewrite Hsetup. unfold mbind, io_bind, lift.
    now destruct (scan_loop fuel (forward o) f printer st0). }
  unfold scan_setup in Hsetup. exc_simpl.
  destruct (build_filters o) as [fs|e]; [|discriminate].
  destruct (build_printer o) as [p|e]; [|discriminate].
  destruct (ensure_block (block_arg o)) as [i|e]; [|discriminate].
  injection Hsetup as <- <- <-. simpl.
  split; [now exists fs|]. repeat split. exact Hscan.
Qed.

(** C8: a block none of whose transactions passes the filter prints
    nothing to the table (neither header nor row) and leaves the header
    still to be printed if it was.  A block with surviving transactions
    prints the header if no earlier block printed it, then one row per
    surviving transaction, in the block's order under [--forward] and
    reversed otherwise; the first row carries the block height in the
    height column, the others leave it blank ([block_rows]).  Over a
    whole run the table is empty or is the header, once, followed by
    rows only. *)
Theorem scan_block_output (o : options) (f : tx_pred)
  (printer : RowPrinter) (st0 st : loop_state) (blk : block)
  (txs : list json) (fuel : nat) :
  scan_setup o = Ok (f, printer, st0) ->
  get_block (id st) = Ok blk ->
  py_filter f (confirmed_transaction_list blk) = Ok txs ->
  txs = List.filter (accepts f) (confirmed_transaction_list blk)
  /\ (txs = [] ->
      scan_iter (forward o) f printer st =
      ([Status (id st)], Ok (next_state (forward o) blk (sep_print st))))
  /\ (txs <> [] ->
      exists cols,
        printer = new_RowPrinter (TX_HEIGHT_COLUMN :: cols)
        /\ forall lines,
             block_rows cols (height blk)
               (if forward o then txs else rev txs) = Ok lines ->
             scan_iter (forward o) f printer st =
             (Status (id st)
                :: (if sep_print st then []
                    else [Header (rp_header printer)])
                ++ map Data lines,
              Ok (next_state (forward o) blk true))
             /\ length lines = length txs)
  /\ (exists ls,
        table_out (scan fuel o).1 = []
        \/ table_out (scan fuel o).1 =
           Header (rp_header printer) :: map Data ls).
Proof.
  intros Hsetup Hb Hf.
  destruct (scan_setup_inv o f printer st0 Hsetup)
    as [_ [Hprinter [_ [Hsep Hscan]]]].
  split; [now apply py_filter_accepts|].
  split; [|split].
  - intros ->. now rewrite scan_iter_eq, Hb, Hf.
  - intros Hne.
    destruct (build_printer_columns o printer Hprinter) as [cols [-> Hcols]].
    exists cols. split; [reflexivity|]. intros lines Hrows.
    split.
    + rewrite scan_iter_eq, Hb, Hf.
      destruct txs as [|tx txs]; [contradiction|].
      cbn zeta. unfold show_txs.
      assert (Hshown : (if negb (forward o) then rev (tx :: txs)
                        else tx :: txs) =
                       (if forward o then tx :: txs else rev (tx :: txs)))
        by now destruct (forward o).
      rewrite Hshown.
      unfold block_rows in Hrows. exc_simpl.
      destruct (mapM (tx_cells cols) _) as [css|e] eqn:Em; [|discriminate].
      injection Hrows as <-.
      rewrite (show_txs_loop_built cols _ _ css Hcols Em). reflexivity.
    + rewrite (block_rows_length _ _ _ _ Hrows).
      destruct (forward o); [reflexivity|apply length_rev].
  - rewrite Hscan.
    destruct (scan_loop_table fuel (forward o) f printer st0) as [ls Hls].
    rewrite Hsep in Hls. exists ls.
    destruct Hls as [[Ht _]|[Ht _]]; [now left|now right].
Qed.
End block_facts.

Lemma demo_fetch (h : Z) (blk : block) :
  @get_block demo_service (BHeight h) = Ok blk -> height blk = h.
Proof. simpl. now injection 1 as <-. Qed.

Lemma scan_visits_in_order_witness :
  fetched (@scan demo_util demo_service 4
             {| columns := ["type,method"]; block_arg := "10";
                forward := true; nobase := true; receivers := [];
                senders := []; addresses := []; methods := ["transfer"];
                data_types := [] |}).1 !! 0%nat = Some (BHeight 10).
Proof.
  refine (proj1 (proj2 (proj2
    (@scan_visits_in_order demo_util demo_service
       {| columns := ["type,method"]; block_arg := "10";
          forward := true; nobase := true; receivers := [];
          senders := []; addresses := []; methods := ["transfer"];
          data_types := [] |} 4 10 _ _ _ demo_fetch eq_refl eq_refl))) _).
  lia.
Defined.

Lemma scan_block_output_witness :
  exists ls,
    table_out (@scan demo_util demo_service 4
                 {| columns := ["type,method"]; block_arg := "10";
                    forward := true; nobase := true; receivers := [];
                    senders := []; addresses := []; methods := ["transfer"];
                    data_types := [] |}).1 = []
    \/ table_out (@scan demo_util demo_service 4
                    {| columns := ["type,method"]; block_arg := "10";
                       forward := true; nobase := true; receivers := [];
                       senders := []; addresses := [];
                       methods := ["transfer"]; data_types := [] |}).1 =
       Header "|   Height | Type     | Method               |"
         :: map Data ls.
Proof.
  refine (proj2 (proj2 (proj2
    (@scan_block_output demo_util demo_service
       {| columns := ["type,method"]; block_arg := "10";
          forward := true; nobase := true; receivers := [];
          senders := []; addresses := []; methods := ["transfer"];
          data_types := [] |} _ _ _
       {| id := BHeight 12; sep_print := false |} _ _ 4
       eq_refl eq_refl eq_refl)))).
Defined.

End txscan_facts.

(** * Properties of [status] *)

Module status_facts.
Import status.

Ltac exc_simpl :=
  repeat (unfold mbind, mret, exc_bind, exc_ret in *; simpl in * ).

(** ** The model on small inputs *)

Example strftime_HMS_clock :
  strftime_HMS (63900000000 * 1000000) = "08:00:00"
  /\ strftime_HMS (63900000000 * 1000000 + 3725 * 1000000 + 999999)
     = "09:02:05".
Proof. split; reflexivity. Qed.

Example time_next_range :
  time_next 0 10 11 = Raise OverflowError
  /\ time_next 5000000 10 11 = Ok 3000000
  /\ time_next 0 (MAX_DELTA_DAYS * DAY_SECONDS) 0 = Raise OverflowError.
Proof. repeat split; reflexivity. Qed.

(** Five roster entries: two main nodes, a grade "0x1" entry without
    metadata (no line, the index moves on), a candidate, and a main node
    whose version query fails after its chain query answered with height
    120. *)
Example status_run :
  @show_status demo_deps
    (demo_input [demo_entry "hx01" "0x0" "alpha";
                 demo_entry "hx02" "0x0" "beta";
                 demo_entry "hx09" "0x1" "ghost";
                 demo_entry "hx03" "0x2" "gamma";
                 demo_entry "hx04" "0x0" "delta"]) =
  ([{| l_format := (MAIN_FORMAT ++ LOWER_VERSION_FORMAT ++ LATE_FORMAT)%string;
       l_args := [AInt 0; AStr "alpha"; AStr "Main"; AStr "10.0.0.1";
                  AStr "1.3.0"; AInt 100; AStr "started"; AInt (-20)] |};
    {| l_format := (MAIN_FORMAT ++ LOWER_VERSION_FORMAT ++ LATE_FORMAT)%string;
       l_args := [AInt 1; AStr "beta"; AStr "Main"; AStr "10.0.0.2";
                  AStr "1.2.9"; AInt 98; AStr "started"; AInt (-22)] |};
    {| l_format := (STATUS_FORMAT ++ OK_VERSION_FORMAT ++ LATE_FORMAT)%string;
       l_args := [AInt 3; AStr "gamma"; AStr "Cand"; AStr "10.0.0.3";
                  AStr "[OK]"; AInt 97; AStr "started"; AInt (-23)] |};
    {| l_format := (MAIN_FORMAT ++ FAIL_FORMAT)%string;
       l_args := [AInt 4; AStr "delta"; AStr "Main"; AStr "10.0.0.4";
                  AStr (MC ++ "FAIL" ++ NC)%string] |};
    {| l_format := (LAST_FORMAT ++ "  NextTerm: %d / %s"
                    ++ "   %s Updated: %d / %d / %d" ++ LAST_FOOTER)%string;
       l_args := [AInt 3; AInt 3; AInt 150; AStr "08:01:00"; AStr "1.3.1";
                  AInt 0; AInt 1; AInt 3] |}],
   Ok tt).
Proof. vm_compute. reflexivity. Qed.

(** ** The running maximum *)

Lemma max_from_base (l : list Z) (base : Z) : base <= max_from base l.
Proof.
  unfold max_from. revert base. induction l as [|x l IH]; intros base; simpl.
  - lia.
  - specialize (IH (Z.max base x)). lia.
Qed.

Lemma max_from_upper (l : list Z) (base x : Z) :
  x ∈ l -> x <= max_from base l.
Proof.
  unfold max_from. revert base. induction l as [|y l IH]; intros base Hin.
  - inversion Hin.
  - simpl. apply elem_of_cons in Hin as [->|Hin].
    + pose proof (max_from_base l (Z.max base y)). unfold max_from in *. lia.
    + now apply IH.
Qed.

Lemma max_from_attained (l : list Z) (base : Z) :
  max_from base l = base \/ max_from base l ∈ l.
Proof.
  unfold max_from. revert base. induction l as [|y l IH]; intros base; simpl.
  - now left.
  - destruct (IH (Z.max base y)) as [Hm|Hm].
    + rewrite Hm. destruct (Z.max_spec base y) as [[_ ->]|[_ ->]].
      * right. apply elem_of_cons. now left.
      * now left.
    + right. apply elem_of_cons. now right.
Qed.

Lemma max_from_nonneg (l : list Z) :
  l <> [] -> Forall (fun x => 0 <= x) l -> max_from 0 l ∈ l.
Proof.
  intros Hne Hpos. destruct (max_from_attained l 0) as [Hm|Hm]; [|exact Hm].
  destruct l as [|x l]; [contradiction|].
  pose proof (max_from_upper (x :: l) 0 x ltac:(apply elem_of_cons; now left)).
  inversion Hpos; subst. assert (x = 0) by lia. subst x.
  rewrite Hm. apply elem_of_cons. now left.
Qed.

Section status_lemmas.
Context `{Deps}.

(** ** First loop *)

Lemma build_step_degraded (info_map : gmap string node_info)
  (st : build_state) (prep : prep_entry) :
  degraded_entry info_map prep ->
  build_step info_map st prep = item_append st.
Proof.
  intros [Habs Hgrade]. unfold build_step. rewrite Habs.
  now rewrite bool_decide_eq_false_2.
Qed.

Lemma item_append_raises (st : build_state) :
  exists e, item_append st = Raise e.
Proof. unfold item_append. destruct (item st); eauto. Qed.

Lemma build_loop_degraded (info_map : gmap string node_info)
  (roster : list prep_entry) (st : build_state) (prep : prep_entry) :
  prep ∈ roster -> degraded_entry info_map prep ->
  exists e, build_loop info_map st roster = Raise e.
Proof.
  intros Hin Hdeg. revert st.
  induction roster as [|x roster IH]; intros st; [inversion Hin|].
  simpl. exc_simpl. apply elem_of_cons in Hin as [<-|Hin].
  - rewrite build_step_degraded by exact Hdeg.
    destruct (item_append_raises st) as [e ->]. eauto.
  - destruct (build_step info_map st x) as [st'|e]; [|eauto].
    now apply IH.
Qed.

(** ** Second loop *)

Lemma aggregate_loop_cons (a : agg) (it : PRep) (its : list PRep) :
  aggregate_loop a (it :: its) =
  ((aggregate_loop (poll_item a it).1 its).1,
   (poll_item a it).2 :: (aggregate_loop (poll_item a it).1 its).2).
Proof.
  simpl. destruct (poll_item a it) as [a1 p]. simpl.
  now destruct (aggregate_loop a1 its).
Qed.

Lemma poll_item_item (a : agg) (it : PRep) : p_item (poll_item a it).2 = it.
Proof.
  unfold poll_item. destruct (poll_try a it) as [a' [[c v]|e]]; reflexivity.
Qed.

Lemma aggregate_loop_items (a : agg) (its : list PRep) :
  map p_item (aggregate_loop a its).2 = its.
Proof.
  revert a. induction its as [|it its IH]; intros a; [reflexivity|].
  rewrite aggregate_loop_cons. simpl. now rewrite poll_item_item, IH.
Qed.

Lemma poll_item_all_or_nothing (a : agg) (it : PRep) :
  all_or_nothing (poll_item a it).2.
Proof.
  unfold all_or_nothing, poll_item, poll_try.
  destruct (futures it) as [[[c|e1] [v|e2]]|] eqn:Ef; simpl; auto.
  destruct (is_lower_version _ _) as [b|e]; simpl; auto.
  left. exists c, v. now rewrite Ef.
Qed.

Lemma poll_item_top (a : agg) (it : PRep) :
  top_height (poll_item a it).1 =
  max_from (top_height a) (polled_heights [it]).
Proof.
  unfold poll_item, poll_try, max_from. cbn [polled_heights].
  destruct (futures it) as [[[[[h|] s]|e1] fv]|]; simpl; try reflexivity.
  - destruct (Z.ltb_spec (top_height a) h); destruct fv as [v|e2]; simpl;
      try (destruct (is_lower_version _ _) as [[|]|e]; simpl); lia.
  - destruct fv as [v|e2]; simpl;
      try (destruct (is_lower_version _ _) as [[|]|e]; simpl); reflexivity.
Qed.

Lemma polled_heights_cons (it : PRep) (its : list PRep) :
  polled_heights (it :: its) = polled_heights [it] ++ polled_heights its.
Proof.
  simpl. destruct (futures it) as [[[[[h|] s]|e1] fv]|]; reflexivity.
Qed.

Lemma aggregate_loop_top (a : agg) (its : list PRep) :
  top_height (aggregate_loop a its).1 =
  max_from (top_height a) (polled_heights its).
Proof.
  revert a. induction its as [|it its IH]; intros a; [reflexivity|].
  rewrite aggregate_loop_cons, polled_heights_cons. cbn [fst].
  rewrite IH, poll_item_top. unfold max_from. now rewrite fold_left_app.
Qed.

Lemma poll_item_last (a b : agg) (it : PRep) :
  last_version a = last_version b ->
  last_version (poll_item a it).1 = last_version (poll_item b it).1
  /\ populated (poll_item a it).2 = populated (poll_item b it).2.
Proof.
  intros Hab. unfold poll_item, poll_try, populated.
  destruct (futures it) as [[[[[h|] s]|e1] [v|e2]]|]; simpl; auto;
    try (destruct (top_height a <? h), (top_height b <? h); simpl);
    rewrite ?Hab; try (destruct (is_lower_version _ _) as [[|]|e]; simpl);
    auto.
Qed.

Lemma poll_item_unpopulated (a : agg) (it : PRep) :
  populated (poll_item a it).2 = false ->
  last_version (poll_item a it).1 = last_version a.
Proof.
  unfold poll_item, poll_try, populated.
  destruct (futures it) as [[[[[h|] s]|e1] [v|e2]]|]; simpl; auto;
    try (destruct (top_height a <? h); simpl); auto;
    destruct (is_lower_version _ _) as [[|]|e]; simpl; auto; discriminate.
Qed.

Lemma aggregate_loop_populated (a b : agg) (its : list PRep) :
  last_version a = last_version b ->
  last_version (aggregate_loop a its).1 =
  last_version
    (aggregate_loop b
       (map p_item (List.filter populated (aggregate_loop a its).2))).1.
Proof.
  revert a b. induction its as [|it its IH]; intros a b Hab.
  - exact Hab.
  - rewrite aggregate_loop_cons. cbn [fst snd List.filter].
    destruct (populated (poll_item a it).2) eqn:Epop.
    + cbn [map]. rewrite poll_item_item, aggregate_loop_cons. cbn [fst].
      apply IH. now apply poll_item_last.
    + apply IH. now rewrite poll_item_unpopulated.
Qed.
End status_lemmas.

Section status_claims.
Context `{Deps}.

(** C1 (the code departs from it): a roster entry that is absent from
    the metadata file and is not of grade "0x1" reaches
    [item.append(...)], which raises: [item] is unbound
    (UnboundLocalError) when no full record came before, and otherwise
    a [PRep], which has no [append] (AttributeError).  The first loop
    ends there, so no degraded record is made, no later entry is
    processed and the command prints nothing. *)
Theorem degraded_entry_ends_run (inp : run_input) (prep : prep_entry) :
  prep ∈ preps inp ->
  degraded_entry (prep_info inp) prep ->
  (exists e, build_items (prep_info inp) (preps inp) = Raise e)
  /\ (exists e, show_status inp = ([], Raise e))
  /\ (forall rest, preps inp = prep :: rest ->
        build_items (prep_info inp) (preps inp) = Raise UnboundLocalError).
Proof.
  intros Hin Hdeg.
  destruct (build_loop_degraded (prep_info inp) (preps inp)
              {| items := []; item := None |} prep Hin Hdeg) as [e He].
  assert (Hb : build_items (prep_info inp) (preps inp) = Raise e).
  { unfold build_items. now rewrite He. }
  split; [eauto|]. split.
  - unfold show_status, mbind, io_bind, lift.
    destruct (py_int0 (nextPRepTerm inp)) as [nt|e0]; [|eauto].
    rewrite Hb. eauto.
  - intros rest Hrest. unfold build_items. rewrite Hrest. simpl.
    now rewrite build_step_degraded.
Qed.

(** C2, as the code has it: after the aggregation every item has a
    result, and a result is either both answers of queries that
    succeeded or the unreachable marker with version "unknown".  The
    last version is the one the fully populated nodes alone would give.
    The top height is the greatest height any chain query answered
    with (0 when none did), whether or not the node ends up marked
    unreachable. *)
Theorem poll_results_all_or_nothing (its : list PRep) :
  map p_item (aggregate its).2 = its
  /\ Forall all_or_nothing (aggregate its).2
  /\ last_version (aggregate its).1 =
     last_version
       (aggregate (map p_item
                     (List.filter populated (aggregate its).2))).1
  /\ top_height (aggregate its).1 = max_from 0 (polled_heights its).
Proof.
  unfold aggregate. split; [apply aggregate_loop_items|].
  split; [|split].
  - generalize {| top_height := 0; last_version := None |} as a.
    induction its as [|it its IH]; intros a; [constructor|].
    rewrite aggregate_loop_cons. cbn [snd].
    constructor; [apply poll_item_all_or_nothing|apply IH].
  - now apply aggregate_loop_populated.
  - now rewrite aggregate_loop_top.
Qed.

Lemma version_cell_ok (vc : option string) (d : prep_dict) (v : string)
  (c : counters) :
  (forall w, vc = Some w ->
             is_ok (is_lower_version (Some v) (Some w)) = true) ->
  exists vf va c1,
    version_cell vc d v c = Ok (vf, va, c1)
    /\ late_nodes c1 = late_nodes c /\ idx c1 = idx c.
Proof.
  intros Hok. unfold version_cell. destruct vc as [w|].
  - specialize (Hok w eq_refl). exc_simpl.
    destruct (is_lower_version (Some v) (Some w)) as [[|]|e];
      [| |discriminate]; eauto 10.
  - eauto 10.
Qed.

(** C3, as the code has it: the top height is the greatest height the
    chain queries answered with, whether or not the node ends up marked
    unreachable (the running maximum starts at 0; heights being
    non-negative, it is one of the polled heights as soon as there is
    one).  A reachable node whose snapshot has height [h] and a state
    gets the warning format with its deficit and counts as late exactly
    when [h] is more than 2 below the top height; at exactly 2 below it
    gets the plain format and is not counted. *)
Theorem top_height_and_late_flag (its : list PRep) (vc : option string)
  (c : counters) (p : polled) (d : prep_dict) (ip : string)
  (ch : chain_t) (h : Z) (state : string) :
  prep (p_item p) = Some d -> p_ip d = Some ip ->
  chain p = Some ch -> c_height ch = Some h -> c_state ch = Some state ->
  (forall w, vc = Some w ->
             is_ok (is_lower_version (Some (version p)) (Some w)) = true) ->
  let top := top_height (aggregate its).1 in
  let late := bool_decide (2 < top - h) in
  top = max_from 0 (polled_heights its)
  /\ (forall x, x ∈ polled_heights its -> x <= top)
  /\ (polled_heights its <> [] ->
      Forall (fun x => 0 <= x) (polled_heights its) ->
      top ∈ polled_heights its)
  /\ exists vf va l c',
       display_item top vc c p = ([l], Ok c')
       /\ l_format l =
          (base_format d ++ vf ++
           (if late then LATE_FORMAT else PLAIN_FORMAT))%string
       /\ l_args l =
          [AInt (idx c); AStr (String.substring 0 18 (p_name d));
           AStr (p_type d); AStr ip] ++ va ++
          (if late then [AInt h; AStr state; AInt (h - top)]
           else [AInt h; AStr state])
       /\ late_nodes c' = late_nodes c + (if late then 1 else 0)
       /\ (h = top - 2 -> late = false).
Proof.
  intros Hprep Hip Hchain Hh Hstate Hver top late.
  assert (Htop : top = max_from 0 (polled_heights its)).
  { subst top. unfold aggregate. now rewrite aggregate_loop_top. }
  split; [exact Htop|]. split; [|split].
  - intros x Hx. rewrite Htop. now apply max_from_upper.
  - intros Hne Hpos. rewrite Htop. now apply max_from_nonneg.
  - destruct (version_cell_ok vc d (version p)
                {| idx := idx c; late_nodes := late_nodes c;
                   updated_main := updated_main c;
                   updated_in22 := updated_in22 c;
                   updated_nodes := updated_nodes c;
                   all_nodes := all_nodes c + 1;
                   main_nodes := main_nodes c |} Hver)
      as (vf & va & c1 & Hvc & Hlate & Hidx).
    simpl in Hlate, Hidx.
    assert (Hcmp : (h <? top - 2) = late).
    { subst late. destruct (Z.ltb_spec h (top - 2)).
      - now rewrite bool_decide_eq_true_2 by lia.
      - now rewrite bool_decide_eq_false_2 by lia. }
    exists vf, va. unfold display_item. rewrite Hprep, Hip, Hchain.
    unfold mbind, io_bind, lift, print. cbn zeta. cbn iota.
    unfold mbind in Hvc. rewrite Hvc. unfold exc_bind. cbn iota.
    unfold height_cell. rewrite Hh, Hstate, Hcmp.
    destruct late eqn:El; cbn.
    + do 2 eexists. split; [reflexivity|]. cbn.
      repeat split. lia.
      intros ->. apply bool_decide_eq_true_1 in El. lia.
    + do 2 eexists. split; [reflexivity|]. cbn.
      repeat split. lia.
Qed.

Lemma time_next_exact (now next_term top t : Z) :
  time_next now next_term top = Ok t ->
  t = now + (next_term - top) * 2 * 1000000.
Proof.
  unfold time_next, timedelta_seconds, datetime_add. exc_simpl.
  destruct (_ <=? _); [|discriminate]. simpl.
  destruct (datetime_valid _); [|discriminate].
  now injection 1 as <-.
Qed.

(** C9: when the summary is printed, the next-term time it shows is
    the clock reading of the time captured before the polling plus
    exactly two seconds for each block between the top height and the
    next-term height read from the term info. *)
Theorem next_term_estimate (inp : run_input) (out : list line) :
  show_status inp = (out, Ok tt) ->
  exists nt its rows l t,
    py_int0 (nextPRepTerm inp) = Ok nt
    /\ build_items (prep_info inp) (preps inp) = Ok its
    /\ out = rows ++ [l]
    /\ time_next (now inp) nt (top_height (aggregate its).1) = Ok t
    /\ t = now inp + (nt - top_height (aggregate its).1) * 2 * 1000000
    /\ l_args l !! 2%nat = Some (AInt nt)
    /\ l_args l !! 3%nat = Some (AStr (strftime_HMS t)).
Proof.
  unfold show_status, mbind, io_bind, lift. intros Hrun.
  destruct (py_int0 (nextPRepTerm inp)) as [nt|e]; [|discriminate].
  destruct (build_items (prep_info inp) (preps inp)) as [its|e];
    [|discriminate].
  cbn iota in Hrun. cbn zeta in Hrun.
  destruct (aggregate its) as [a ps] eqn:Ea.
  destruct (display_loop _ _ _ _) as [rows [c|e]]; [|discriminate].
  unfold summary, mbind, io_bind, lift, print in Hrun.
  destruct (time_next (now inp) nt (top_height a)) as [t|e] eqn:Et;
    [|destruct (version_opt inp); cbn in Hrun; discriminate].
  exists nt, its, rows. rewrite Ea. cbn [fst].
  pose proof (time_next_exact _ _ _ _ Et) as Hexact.
  destruct (match version_opt inp with
            | Some v => Some v
            | None => last_version a
            end) as [v|]; cbn in Hrun; injection Hrun as <-;
    eexists; exists t; repeat split; try reflexivity; assumption.
Qed.
End status_claims.

(** C2, as the spec words it, does not hold: a node whose chain query
    answers with height 120 and whose version query fails ends up marked
    unreachable, and yet the top height is 120, where the populated nodes
    alone (there are none) give 0. *)
Lemma unreachable_node_sets_top_height :
  (~ exists D : Deps, forall its, aggregates_only_from_populated D its)
  /\ (let r := @aggregate demo_deps
                 [{| prep := None;
                     futures := Some (Ok {| c_height := Some 120;
                                            c_state := Some "started" |},
                                      Raise ExternalError) |}] in
      top_height r.1 = 120 /\ map chain r.2 = [None]
      /\ map version r.2 = ["unknown"]).
Proof.
  split; [|repeat split].
  intros [D HD].
  specialize (HD [{| prep := None;
                     futures := Some (Ok {| c_height := Some 120;
                                            c_state := Some "started" |},
                                      Raise ExternalError) |}]).
  unfold aggregates_only_from_populated in HD. discriminate HD.
Qed.

Lemma degraded_entry_ends_run_witness :
  exists e,
    @show_status demo_deps
      (demo_input [demo_entry "hx01" "0x0" "alpha";
                   demo_entry "hx09" "0x0" "ghost";
                   demo_entry "hx02" "0x0" "beta"]) = ([], Raise e).
Proof.
  refine (proj1 (proj2
    (@degraded_entry_ends_run demo_deps
       (demo_input [demo_entry "hx01" "0x0" "alpha";
                    demo_entry "hx09" "0x0" "ghost";
                    demo_entry "hx02" "0x0" "beta"])
       (demo_entry "hx09" "0x0" "ghost") _ _))).
  - apply elem_of_cons. right. apply elem_of_cons. now left.
  - split; [reflexivity|discriminate].
Defined.

Lemma top_height_and_late_flag_witness :
  exists l c',
    @display_item demo_deps 100 None counters0
      {| p_item := {| prep := Some {| p_name := "beta"; p_ip := Some "10.0.0.2";
                                      p_type := "Main"; p_power := 16 |};
                      futures := Some (demo_get_chain "10.0.0.2",
                                       demo_get_version "10.0.0.2") |};
         chain := Some {| c_height := Some 98; c_state := Some "started" |};
         version := "1.2.9" |} = ([l], Ok c')
    /\ late_nodes c' = 0.
Proof.
  destruct (@top_height_and_late_flag demo_deps
              [{| prep := None;
                  futures := Some (demo_get_chain "10.0.0.1",
                                   demo_get_version "10.0.0.1") |};
               {| prep := None;
                  futures := Some (demo_get_chain "10.0.0.2",
                                   demo_get_version "10.0.0.2") |}]
              None counters0
              {| p_item := {| prep := Some {| p_name := "beta";
                                              p_ip := Some "10.0.0.2";
                                              p_type := "Main";
                                              p_power := 16 |};
                              futures := Some (demo_get_chain "10.0.0.2",
                                               demo_get_version "10.0.0.2") |};
                 chain := Some {| c_height := Some 98;
                                  c_state := Some "started" |};
                 version := "1.2.9" |}
              {| p_name := "beta"; p_ip := Some "10.0.0.2";
                 p_type := "Main"; p_power := 16 |}
              "10.0.0.2"
              {| c_height := Some 98; c_state := Some "started" |}
              98 "started" eq_refl eq_refl eq_refl eq_refl eq_refl
              ltac:(discriminate))
    as (_ & _ & _ & vf & va & l & c' & Hd & _ & _ & Hl & _).
  exists l, c'. split; [exact Hd|]. rewrite Hl. reflexivity.
Defined.

Lemma next_term_estimate_witness :
  exists nt its rows l t,
    @py_int0 demo_deps "0x96" = Ok nt
    /\ @build_items demo_deps demo_prep_info
         [demo_entry "hx01" "0x0" "alpha"; demo_entry "hx02" "0x0" "beta"]
       = Ok its
    /\ (@show_status demo_deps
          (demo_input [demo_entry "hx01" "0x0" "alpha";
                       demo_entry "hx02" "0x0" "beta"])).1 = rows ++ [l]
    /\ time_next 63900000000000000 nt
         (top_height (@aggregate demo_deps its).1) = Ok t
    /\ t = 63900000000000000
           + (nt - top_height (@aggregate demo_deps its).1) * 2 * 1000000
    /\ l_args l !! 2%nat = Some (AInt nt)
    /\ l_args l !! 3%nat = Some (AStr (strftime_HMS t)).
Proof.
  refine (@next_term_estimate demo_deps
            (demo_input [demo_entry "hx01" "0x0" "alpha";
                         demo_entry "hx02" "0x0" "beta"])
            (@show_status demo_deps
               (demo_input [demo_entry "hx01" "0x0" "alpha";
                            demo_entry "hx02" "0x0" "beta"])).1 _).
  vm_compute. reflexivity.
Defined.

(** C3, as the claim words it, does not hold: the top height is not the
    maximum over the nodes that were polled successfully.  On the roster
    of hx01 (height 100, both queries answer) and hx04 (height 120, the
    version query fails) the second node is marked unreachable and the
    top height is 120, where the one successfully polled node has 100. *)
Lemma top_height_above_reachable_nodes :
  (~ exists D : Deps, forall its, top_height_of_reachable D its)
  /\ (let r := @aggregate demo_deps
                 match @build_items demo_deps demo_prep_info
                         [demo_entry "hx01" "0x0" "alpha";
                          demo_entry "hx04" "0x0" "delta"] with
                 | Ok its => its
                 | Raise _ => []
                 end in
      top_height r.1 = 120
      /\ reachable_heights r.2 = [100]
      /\ map version r.2 = ["1.3.0"; "unknown"]).
Proof.
  split; [|repeat split].
  intros [D HD].
  specialize (HD [{| prep := None;
                     futures := Some (Ok {| c_height := Some 120;
                                            c_state := Some "started" |},
                                      Raise ExternalError) |}]).
  unfold top_height_of_reachable in HD. discriminate HD.
Qed.

End status_facts.

(** * Further properties of [scan] and [status] *)

Module txscan_more.
Import txscan txscan_facts.

(** ** Strings *)

Lemma string_length_app (a b : string) :
  String.length (a ++ b) = (String.length a + String.length b)%nat.
Proof. induction a as [|c a IH]; simpl; [reflexivity|now rewrite IH]. Qed.

Lemma string_app_cons (x : ascii) (a b : string) :
  (String x a ++ b)%string = String x (a ++ b).
Proof. reflexivity. Qed.

Lemma string_app_assoc (a b c : string) :
  ((a ++ b) ++ c = a ++ b ++ c)%string.
Proof.
  induction a as [|x a IH]; [reflexivity|].
  now rewrite !string_app_cons, IH.
Qed.

Lemma spaces_length (n : nat) : String.length (spaces n) = n.
Proof. induction n; simpl; congruence. Qed.

Lemma dashes_length (n : nat) : String.length (dashes n) = n.
Proof. induction n; simpl; congruence. Qed.

Lemma format_str_length (f : fmt) (s : string) :
  String.length (format_str f s) = Nat.max (String.length s) (fmt_width f).
Proof.
  destruct f as [w|w]; simpl; unfold ljust, rjust;
    rewrite string_length_app, spaces_length; lia.
Qed.

Lemma py_format_length (f : fmt) (v : json) (cell : string) :
  py_format f v = Ok cell -> (fmt_width f <= String.length cell)%nat.
Proof.
  destruct v as [|b|n|s|l|d]; simpl; try discriminate; injection 1 as <-.
  - destruct f as [w|w]; simpl; unfold rjust;
      rewrite string_length_app, spaces_length; lia.
  - destruct f as [w|w]; simpl; unfold rjust;
      rewrite string_length_app, spaces_length; lia.
  - rewrite format_str_length. lia.
Qed.

Lemma join_length (sep1 sep2 : string) (l1 l2 : list string) :
  String.length sep1 = String.length sep2 ->
  Forall2 (fun a b => String.length a = String.length b) l1 l2 ->
  String.length (join sep1 l1) = String.length (join sep2 l2).
Proof.
  intros Hsep. induction 1 as [|a b l1 l2 Hab Hl IH]; [reflexivity|].
  destruct Hl as [|a' b' l1 l2 Hab' Hl]; [exact Hab|].
  change (String.length (a ++ sep1 ++ join sep1 (a' :: l1))%string =
          String.length (b ++ sep2 ++ join sep2 (b' :: l2))%string).
  rewrite !string_length_app, Hab, Hsep, IH. reflexivity.
Qed.

Lemma join_length_le (sep1 sep2 : string) (l1 l2 : list string) :
  String.length sep1 = String.length sep2 ->
  Forall2 (fun a b => (String.length a <= String.length b)%nat) l1 l2 ->
  (String.length (join sep1 l1) <= String.length (join sep2 l2))%nat.
Proof.
  intros Hsep. induction 1 as [|a b l1 l2 Hab Hl IH]; [reflexivity|].
  destruct Hl as [|a' b' l1 l2 Hab' Hl]; [exact Hab|].
  change (String.length (a ++ sep1 ++ join sep1 (a' :: l1))%string <=
          String.length (b ++ sep2 ++ join sep2 (b' :: l2))%string)%nat.
  rewrite !string_length_app, Hsep. lia.
Qed.

Lemma table_line_length (l1 l2 : list string) :
  String.length (join " | " l1) = String.length (join " | " l2) ->
  String.length (table_line l1) = String.length (table_line l2).
Proof.
  intros Hj. unfold table_line. rewrite !string_length_app, Hj. reflexivity.
Qed.

Lemma get_values_length (cols : list Column) (title : string) (tx : json)
  (vs : list json) :
  get_values cols title tx = Ok vs -> length vs = length cols.
Proof.
  revert vs. induction cols as [|c cols IH]; simpl; intros vs Hg.
  - now injection Hg as <-.
  - exc_simpl. destruct (get_value c title tx) as [v|e]; [|discriminate].
    destruct (get_values cols title tx) as [vs'|e]; [|discriminate].
    injection Hg as <-. simpl. now rewrite (IH vs' eq_refl).
Qed.

Lemma format_cells_widths (cols : list Column) (vs : list json)
  (cells : list string) :
  length vs = length cols ->
  format_cells (map format cols) vs = Ok cells ->
  Forall2 (fun c cell => (fmt_width (format c) <= String.length cell)%nat)
    cols cells.
Proof.
  revert vs cells. induction cols as [|c cols IH]; intros vs cells Hlen Hf.
  - simpl in Hf. injection Hf as <-. constructor.
  - destruct vs as [|v vs]; [discriminate|]. simpl in Hf. exc_simpl.
    destruct (py_format (format c) v) as [cell|e] eqn:Ec; [|discriminate].
    destruct (format_cells (map format cols) vs) as [cs|e] eqn:Ecs;
      [|discriminate].
    injection Hf as <-. constructor.
    + eapply py_format_length, Ec.
    + eapply IH; [|exact Ecs]. now injection Hlen.
Qed.

Lemma format_cells_fits (cols : list Column) (vs : list json) :
  Forall2 fits cols vs ->
  exists cells,
    format_cells (map format cols) vs = Ok cells
    /\ Forall2 (fun c cell => String.length cell = fmt_width (format c))
         cols cells.
Proof.
  induction 1 as [|c v cols vs [s [-> Hs]] _ [cells [Hc Hw]]].
  - exists []. split; [reflexivity|constructor].
  - exists (format_str (format c) s :: cells). split.
    + simpl. exc_simpl. now rewrite Hc.
    + constructor; [|exact Hw]. rewrite format_str_length. lia.
Qed.

(** A cell is the text of its value with spaces added on one side only,
    up to the width: nothing of the text is cut. *)
Lemma py_format_padded (f : fmt) (v : json) (cell : string) :
  py_format f v = Ok cell ->
  exists txt,
    value_text v = Some txt
    /\ (cell = (txt ++ spaces (fmt_width f - String.length txt))%string
        \/ cell = (spaces (fmt_width f - String.length txt) ++ txt)%string)
    /\ String.length cell = Nat.max (String.length txt) (fmt_width f).
Proof.
  assert (Hr : forall txt w,
             String.length (rjust txt w) = Nat.max (String.length txt) w).
  { intros txt w. unfold rjust.
    rewrite string_length_app, spaces_length. lia. }
  destruct v as [|b|n|s|l|d]; simpl; try discriminate; injection 1 as <-.
  - eexists. split; [reflexivity|].
    destruct f as [w|w]; simpl; (split; [now right|apply Hr]).
  - eexists. split; [reflexivity|].
    destruct f as [w|w]; simpl; (split; [now right|apply Hr]).
  - exists s. split; [reflexivity|]. split; [|apply format_str_length].
    destruct f as [w|w]; simpl; [now left|now right].
Qed.

Lemma format_cells_padded (cols : list Column) (vs : list json)
  (cells : list string) :
  length vs = length cols ->
  format_cells (map format cols) vs = Ok cells ->
  Forall2 (fun cv cell =>
             exists txt,
               value_text cv.2 = Some txt
               /\ (cell = (txt ++ spaces (fmt_width (format cv.1)
                                          - String.length txt))%string
                   \/ cell = (spaces (fmt_width (format cv.1)
                                      - String.length txt) ++ txt)%string)
               /\ String.length cell
                  = Nat.max (String.length txt) (fmt_width (format cv.1)))
    (zip cols vs) cells.
Proof.
  revert vs cells. induction cols as [|c cols IH]; intros vs cells Hlen Hf.
  - simpl in Hf. injection Hf as <-. constructor.
  - destruct vs as [|v vs]; [discriminate|]. simpl in Hf. exc_simpl.
    destruct (py_format (format c) v) as [cell|e] eqn:Ec; [|discriminate].
    destruct (format_cells (map format cols) vs) as [cs|e] eqn:Ecs;
      [|discriminate].
    injection Hf as <-. constructor.
    + apply py_format_padded, Ec.
    + eapply IH; [|exact Ecs]. now injection Hlen.
Qed.

Section alignment.
Context `{Util}.

Lemma table_column_well_sized (c : Column) :
  table_column c -> well_sized c.
Proof.
  intros [nm Hc]. apply TX_COLUMNS_cases in Hc.
  repeat (apply elem_of_cons in Hc as [Hc|Hc];
          [injection Hc as -> ->; split;
           unfold FULL_ADDR_LEN, SHORT_ADDR_LEN; simpl; [lia|reflexivity]|]).
  inversion Hc.
Qed.

Lemma build_printer_well_sized (o : options) (printer : RowPrinter) :
  build_printer o = Ok printer ->
  exists cols, printer = new_RowPrinter cols /\ Forall well_sized cols.
Proof.
  intros Hb. destruct (build_printer_columns o printer Hb) as [cols [-> Hc]].
  eexists. split; [reflexivity|]. constructor.
  - split; simpl; [lia|reflexivity].
  - eapply Forall_impl; [exact Hc|]. intros c. apply table_column_well_sized.
Qed.

Lemma header_cells_sized (cols : list Column) :
  Forall well_sized cols ->
  Forall2 (fun c cell => String.length cell = fmt_width (format c)) cols
    (map (fun c => format_str (format c) (name c)) cols).
Proof.
  induction 1 as [|c cols [Hn Hw] _ IH]; simpl; constructor; [|exact IH].
  rewrite format_str_length. lia.
Qed.

(** X1: the header and the separator of a table have the same length, no
    row is shorter than the header, and every cell of a row is the text
    of its value with spaces added on one side only, as long as the wider
    of the text and the column: cells are padded to the column width and
    never cut. *)
Theorem table_frame_aligned (o : options) (printer : RowPrinter)
  (title : string) (tx : json) (line : string) :
  build_printer o = Ok printer ->
  row_line printer title tx = Ok line ->
  String.length (rp_header printer)
  = String.length (sep_str (rp_columns printer))
  /\ (String.length (rp_header printer) <= String.length line)%nat
  /\ exists vs cells,
       get_values (rp_columns printer) title tx = Ok vs
       /\ length vs = length (rp_columns printer)
       /\ line = table_line cells
       /\ Forall2 (fun cv cell =>
                     exists txt,
                       value_text cv.2 = Some txt
                       /\ (cell = (txt ++ spaces (fmt_width (format cv.1)
                                                  - String.length txt))%string
                           \/ cell = (spaces (fmt_width (format cv.1)
                                              - String.length txt)
                                      ++ txt)%string)
                       /\ String.length cell
                          = Nat.max (String.length txt)
                              (fmt_width (format cv.1)))
            (zip (rp_columns printer) vs) cells.
Proof.
  intros Hb Hrow.
  destruct (build_printer_well_sized o printer Hb) as [cols [-> Hcols]].
  pose proof (header_cells_sized cols Hcols) as Hhdr.
  unfold row_line in Hrow. simpl in Hrow. exc_simpl.
  destruct (get_values cols title tx) as [vs|e] eqn:Eg; [|discriminate].
  destruct (format_cells (map format cols) vs) as [cells|e] eqn:Ef;
    [|discriminate].
  injection Hrow as <-.
  pose proof (get_values_length _ _ _ _ Eg) as Hlen.
  split; [|split].
  - assert (Hj : String.length
                   (join " | "
                      (map (fun c => format_str (format c) (name c)) cols)) =
                 String.length
                   (join "-+-" (map (fun c => dashes (size c)) cols))).
    { apply join_length; [reflexivity|].
      clear Hb Hhdr Eg Ef Hlen. induction Hcols as [|c cols [Hn Hw] _ IH];
        simpl; constructor; [|exact IH].
      rewrite dashes_length, format_str_length. lia. }
    unfold table_line, sep_str. rewrite !string_length_app, Hj.
    reflexivity.
  - pose proof (format_cells_widths cols vs cells Hlen Ef) as Hw.
    assert (Hj : (String.length
                    (join " | "
                       (map (fun c => format_str (format c) (name c)) cols))
                  <= String.length (join " | " cells))%nat).
    { apply join_length_le; [reflexivity|].
      clear Eg Ef Hb Hcols Hlen. revert cells Hw.
      induction cols as [|c cols IH]; intros cells Hw;
        inversion Hw; subst; simpl; constructor.
      - inversion Hhdr; subst. lia.
      - apply IH; [now inversion Hhdr|assumption]. }
    unfold table_line. rewrite !string_length_app. simpl. lia.
  - exists vs, cells. split; [reflexivity|]. split; [exact Hlen|].
    split; [reflexivity|]. now apply format_cells_padded.
Qed.
End alignment.

Section alignment_rows.
Context `{Util}.

(** X2: a row whose values all fit their cells is exactly as long as the
    header. *)
Theorem row_aligned_when_fits (o : options) (printer : RowPrinter)
  (title : string) (tx : json) (vs : list json) :
  build_printer o = Ok printer ->
  get_values (rp_columns printer) title tx = Ok vs ->
  Forall2 fits (rp_columns printer) vs ->
  exists line,
    row_line printer title tx = Ok line
    /\ String.length line = String.length (rp_header printer).
Proof.
  intros Hb Hg Hfit.
  destruct (build_printer_well_sized o printer Hb) as [cols [-> Hcols]].
  simpl in Hg, Hfit.
  destruct (format_cells_fits cols vs Hfit) as [cells [Hc Hw]].
  exists (table_line cells). split.
  - unfold row_line. simpl. rewrite Hg. exc_simpl. now rewrite Hc.
  - simpl. apply table_line_length, join_length; [reflexivity|].
    pose proof (header_cells_sized cols Hcols) as Hhdr.
    clear Hc Hg Hfit Hb Hcols. revert cells Hw.
    induction cols as [|c cols IH]; intros cells Hw;
      inversion Hw; subst; simpl; constructor.
    + inversion Hhdr; subst. congruence.
    + apply IH; [now inversion Hhdr|assumption].
Qed.
End alignment_rows.

(** ** [expand_comma] *)

Lemma split_on_nonempty (sep : ascii) (s : string) : split_on sep s <> [].
Proof.
  destruct s as [|c s]; simpl; [discriminate|].
  destruct (Ascii.eqb c sep); [discriminate|].
  destruct (split_on sep s); discriminate.
Qed.

Lemma join_cons (sep x : string) (l : list string) :
  l <> [] -> join sep (x :: l) = (x ++ sep ++ join sep l)%string.
Proof. destruct l; [contradiction|reflexivity]. Qed.

Lemma join_app (sep : string) (l1 l2 : list string) :
  l1 <> [] -> l2 <> [] ->
  join sep (l1 ++ l2) = (join sep l1 ++ sep ++ join sep l2)%string.
Proof.
  intros H1 H2. induction l1 as [|x l1 IH]; [contradiction|].
  destruct l1 as [|y l1].
  - simpl app. now rewrite join_cons.
  - change ((x :: y :: l1) ++ l2) with (x :: ((y :: l1) ++ l2)).
    rewrite !join_cons by (try discriminate; destruct l1; discriminate).
    rewrite IH by discriminate.
    now rewrite !string_app_assoc.
Qed.

Lemma join_head (sep : string) (c : ascii) (h : string) (t : list string) :
  join sep (String c h :: t) = String c (join sep (h :: t)).
Proof. destruct t; reflexivity. Qed.

Lemma split_comma_join (s : string) : join "," (split_comma s) = s.
Proof.
  unfold split_comma. induction s as [|c s IH]; [reflexivity|].
  simpl. destruct (Ascii.eqb_spec c ","%char) as [->|Hne].
  - rewrite join_cons by apply split_on_nonempty. now rewrite IH.
  - pose proof (split_on_nonempty ","%char s) as Hn.
    destruct (split_on ","%char s) as [|h t]; [contradiction|].
    now rewrite join_head, IH.
Qed.

Lemma split_comma_app (a b : string) :
  split_comma (a ++ "," ++ b) = split_comma a ++ split_comma b.
Proof.
  unfold split_comma. induction a as [|c a IH]; [reflexivity|].
  simpl. destruct (Ascii.eqb c ","%char).
  - simpl in IH. now rewrite IH.
  - simpl in IH. rewrite IH.
    pose proof (split_on_nonempty ","%char a) as Hn.
    destruct (split_on ","%char a); [contradiction|reflexivity].
Qed.

Lemma split_comma_comma_free (s x : string) :
  x ∈ split_comma s -> has_comma x = false.
Proof.
  unfold split_comma. revert x. induction s as [|c s IH]; intros x Hx.
  - apply list_elem_of_singleton in Hx. now subst.
  - simpl in Hx. destruct (Ascii.eqb c ","%char) eqn:Ec.
    + apply elem_of_cons in Hx as [->|Hx]; [reflexivity|now apply IH].
    + pose proof (split_on_nonempty ","%char s) as Hn.
      destruct (split_on ","%char s) as [|h t]; [contradiction|].
      apply elem_of_cons in Hx as [->|Hx].
      * simpl. rewrite Ec. apply IH. apply elem_of_cons. now left.
      * apply IH. apply elem_of_cons. now right.
Qed.

Lemma split_comma_id (s : string) : has_comma s = false -> split_comma s = [s].
Proof.
  unfold split_comma. induction s as [|c s IH]; [reflexivity|].
  simpl. intros Hc. apply orb_false_iff in Hc as [Hc Hs].
  rewrite Hc, (IH Hs). reflexivity.
Qed.

(** X3: repeating an option and joining its values with commas are the
    same thing. *)
Theorem expand_comma_is_split_of_join (args : list string) :
  args <> [] -> expand_comma args = split_comma (join "," args).
Proof.
  unfold expand_comma. induction args as [|a args IH]; [contradiction|].
  intros _. destruct args as [|b args].
  - simpl. now rewrite app_nil_r.
  - rewrite join_cons by discriminate. rewrite split_comma_app.
    simpl flat_map at 1. f_equal. apply IH. discriminate.
Qed.

(** X4: the items are comma-free, all of each argument is kept, and
    expanding twice changes nothing. *)
Theorem expand_comma_items (args : list string) :
  Forall (fun x => has_comma x = false) (expand_comma args)
  /\ map (join ",") (map split_comma args) = args
  /\ expand_comma (expand_comma args) = expand_comma args
  /\ (length args <= length (expand_comma args))%nat.
Proof.
  assert (Hfree : Forall (fun x => has_comma x = false) (expand_comma args)).
  { apply Forall_forall. intros x Hx. unfold expand_comma in Hx.
    apply list_elem_of_In, in_flat_map in Hx as [a [_ Hx]].
    eapply split_comma_comma_free. apply list_elem_of_In. exact Hx. }
  split; [exact Hfree|]. split; [|split].
  - clear Hfree. induction args as [|a args IH]; [reflexivity|].
    cbn [map]. now rewrite split_comma_join, IH.
  - unfold expand_comma in *. induction Hfree as [|x l Hx _ IH];
      [reflexivity|].
    cbn [flat_map]. now rewrite (split_comma_id x Hx), IH.
  - clear Hfree. unfold expand_comma.
    induction args as [|a args IH]; [reflexivity|].
    cbn [flat_map length]. rewrite length_app.
    pose proof (split_on_nonempty ","%char a) as Hn. unfold split_comma at 1.
    destruct (split_on ","%char a); [contradiction|]. cbn [length]. lia.
Qed.

(** ** [dict_get] *)

(** X5: [dict_get] never raises KeyError: a key is looked up only after the
    membership test, so the only exception is the TypeError of a value that
    is not a dict on the way. *)
Theorem dict_get_only_TypeError (value : json) (keys : keys_arg)
  (dflt : json) (e : exn) :
  dict_get value keys dflt = Raise e -> e = TypeError.
Proof.
  unfold dict_get. generalize (match keys with Key k => [k] | Keys ks => ks end).
  intros ks. revert value. induction ks as [|k ks IH]; intros value Hd.
  - discriminate.
  - simpl in Hd. destruct value as [|b|n|s|l|d]; simpl in Hd;
      try (injection Hd as <-; reflexivity).
    + exc_simpl. destruct (str_contains k s); [|discriminate].
      now injection Hd as <-.
    + exc_simpl. destruct (existsb (is_str k) l); [|discriminate].
      now injection Hd as <-.
    + exc_simpl. destruct (d !! k) as [v|] eqn:Ek; simpl in Hd;
        [|discriminate].
      now apply (IH v).
Qed.

(** ** [merge_filters] and the filters of [scan] *)

(** X6: the filters run left to right and stop at the first rejection. *)
Theorem merge_filters_app (fs gs : list tx_pred) (tx : json) :
  merge_filters (fs ++ gs) tx =
  (b ← merge_filters fs tx;
   if b : bool then merge_filters gs tx else Ok false).
Proof.
  induction fs as [|f fs IH]; simpl.
  - exc_simpl. reflexivity.
  - exc_simpl. destruct (f tx) as [[|]|e]; simpl; [exact IH|reflexivity..].
Qed.

Section filter_turn.
Context `{Service}.

(** X7: the filter step succeeds exactly when the filter answers on every
    transaction; when it raises on one transaction of the fetched block,
    the turn ends with that exception and the status line of the fetch
    is all it printed: neither header nor row of that block. *)
Theorem py_filter_ok (fwd : bool) (f : tx_pred) (printer : RowPrinter)
  (st : loop_state) (blk : block) (l : list json) :
  get_block (id st) = Ok blk ->
  is_ok (py_filter f l) = forallb (fun tx => is_ok (f tx)) l
  /\ (forallb (fun tx => is_ok (f tx)) (confirmed_transaction_list blk)
      = false ->
      exists e,
        py_filter f (confirmed_transaction_list blk) = Raise e
        /\ scan_iter fwd f printer st = ([Status (id st)], Raise e)).
Proof.
  intros Hb.
  assert (Hok : forall l', is_ok (py_filter f l')
                           = forallb (fun tx => is_ok (f tx)) l').
  { induction l' as [|tx l' IH]; [reflexivity|].
    simpl. exc_simpl. destruct (f tx) as [b|e]; simpl; [|reflexivity].
    rewrite <- IH. now destruct (py_filter f l'). }
  split; [apply Hok|].
  intros Hbad. rewrite <- Hok in Hbad.
  destruct (py_filter f (confirmed_transaction_list blk)) as [txs|e] eqn:Ef;
    [discriminate|].
  exists e. split; [reflexivity|].
  now rewrite scan_iter_eq, Hb, Ef.
Qed.
End filter_turn.

Section filter_facts.
Context `{Util}.

(** X8: [--address] is [--from] or [--to]. *)
Theorem address_filter_from_or_to (ads : list string) (tx : json) :
  address_filter ads tx =
  (a ← from_filter ads tx; b ← to_filter ads tx; Ok (a || b)).
Proof.
  unfold address_filter, from_filter, to_filter.
  destruct tx as [|b|n|s|l|d]; try reflexivity.
  - unfold dict_get. simpl. unfold mbind, exc_bind. simpl.
    destruct (str_contains "from" s); simpl; [reflexivity|].
    destruct (str_contains "to" s); reflexivity.
  - unfold dict_get. simpl. unfold mbind, exc_bind. simpl.
    destruct (existsb (is_str "from") l); simpl; [reflexivity|].
    destruct (existsb (is_str "to") l); reflexivity.
  - rewrite !dict_get_key. exc_simpl.
    now destruct (py_in_strs (default JNull (d !! "from")) ads).
Qed.
End filter_facts.

Section option_facts.
Context `{Util} `{Service}.

(** X9: a plain transfer, which carries neither [dataType] nor [data],
    passes [--nobase], never passes a [--method] filter, and passes
    [--data_type] exactly when "transfer" is among the types. *)
Theorem filters_on_plain_transfer (ms ts : list string)
  (d : gmap string json) :
  d !! "data" = None -> d !! "dataType" = None ->
  nobase_filter (JDict d) = Ok true
  /\ method_filter ms (JDict d) = Ok false
  /\ data_type_filter ts (JDict d) = Ok (bool_decide ("transfer" ∈ ts)).
Proof.
  intros Hdata Htype. unfold nobase_filter, method_filter, data_type_filter.
  rewrite !dict_get_key, Htype, (dict_get_absent d "data") by exact Hdata.
  repeat split.
Qed.

Lemma length_pos_nil {A} (l : list A) :
  bool_decide (0 < length l)%nat = negb (bool_decide (l = [])).
Proof. destruct l; reflexivity. Qed.

(** X10: one filter per enabled option. *)
Theorem build_filters_length (o : options) (fs : list tx_pred) :
  build_filters o = Ok fs -> length fs = enabled_count o.
Proof.
  unfold build_filters, enabled_count. rewrite !length_pos_nil.
  unfold mbind, exc_bind.
  destruct (nobase o), (bool_decide (receivers o = [])),
    (bool_decide (senders o = [])), (bool_decide (addresses o = [])),
    (bool_decide (methods o = [])), (bool_decide (data_types o = []));
    cbn [negb];
    repeat match goal with
           | |- context [mapM ensure_address ?l] =>
               destruct (mapM ensure_address l); [|discriminate]
           end;
    injection 1 as <-; reflexivity.
Qed.

Lemma expand_comma_nil_inv (l : list string) (a : string) :
  a ∈ expand_comma l -> bool_decide (0 < length l)%nat = true.
Proof. destruct l; [inversion 1|reflexivity]. Qed.

(** X11: an address [ensure_address] rejects, given to [--to], [--from] or
    [--address], ends [scan] before anything is printed or fetched. *)
Theorem scan_rejected_address (o : options) (a : string) (e : exn)
  (fuel : nat) :
  a ∈ expand_comma (receivers o) \/ a ∈ expand_comma (senders o)
  \/ a ∈ expand_comma (addresses o) ->
  ensure_address a = Raise e ->
  exists e', scan fuel o = ([], Raise e').
Proof.
  intros Hin He.
  assert (Hb : exists e', build_filters o = Raise e').
  { unfold build_filters, mbind, exc_bind.
    destruct Hin as [Hin|[Hin|Hin]];
      pose proof (mapM_raise ensure_address _ a e Hin He) as [e1 H1];
      pose proof (expand_comma_nil_inv _ a Hin) as Hn.
    - rewrite Hn. unfold mbind, exc_bind in H1. rewrite H1. eauto.
    - destruct (if bool_decide (0 < length (receivers o))%nat then _ else _);
        [|eauto].
      rewrite Hn. unfold mbind, exc_bind in H1. rewrite H1. eauto.
    - destruct (if bool_decide (0 < length (receivers o))%nat then _ else _);
        [|eauto].
      destruct (if bool_decide (0 < length (senders o))%nat then _ else _);
        [|eauto].
      rewrite Hn. unfold mbind, exc_bind in H1. rewrite H1. eauto. }
  destruct Hb as [e' Hb]. exists e'.
  unfold scan, scan_setup, mbind, io_bind, lift. rewrite Hb. reflexivity.
Qed.

Lemma mapM_lookup_known (names : list string) :
  Forall (fun nm => nm ∈ KNOWN_COLUMNS) names ->
  exists cols, mapM lookup_column names = Ok cols
               /\ Forall2 (fun nm c => TX_COLUMNS !! nm = Some c) names cols.
Proof.
  induction 1 as [|nm names Hnm _ [cols [Hm Hc]]].
  - exists []. split; [reflexivity|constructor].
  - destruct (TX_COLUMNS !! nm) as [c|] eqn:Ec.
    + exists (c :: cols). split; [|now constructor].
      change (mapM lookup_column (nm :: names))
        with (y ← lookup_column nm; k ← mapM lookup_column names;
              mret (y :: k)).
      assert (Hl : lookup_column nm = Ok c)
        by (unfold lookup_column; now rewrite Ec).
      rewrite Hl, Hm. reflexivity.
    + apply TX_COLUMNS_known in Ec. contradiction.
Qed.

(** X12: with known names only (or none, for the default columns) the
    table is the height column followed by the named columns in the order
    given. *)
Theorem build_printer_known (o : options) :
  Forall (fun nm => nm ∈ KNOWN_COLUMNS) (expand_comma (columns o)) ->
  exists cols,
    build_printer o = Ok (new_RowPrinter (TX_HEIGHT_COLUMN :: cols))
    /\ Forall2 (fun nm c => TX_COLUMNS !! nm = Some c)
         (if bool_decide (columns o = []) then DEFAULT_COLUMN_NAMES
          else expand_comma (columns o)) cols.
Proof.
  intros Hk. unfold build_printer.
  assert (Hnames : Forall (fun nm => nm ∈ KNOWN_COLUMNS)
                     (if bool_decide (columns o = []) then DEFAULT_COLUMN_NAMES
                      else expand_comma (columns o))).
  { destruct (columns o) as [|c cs]; [|exact Hk].
    simpl. unfold DEFAULT_COLUMN_NAMES, KNOWN_COLUMNS.
    repeat constructor; set_solver. }
  destruct (mapM_lookup_known _ Hnames) as [cols [Hm Hc]].
  exists cols. split; [|exact Hc].
  destruct (columns o) as [|c cs]; simpl in *; exc_simpl; now rewrite Hm.
Qed.

(** ** The loop *)

Lemma titles_lookup_S (title : string) (n i : nat) :
  titles title (S n) !! S i = titles EmptyString n !! i.
Proof. destruct n; reflexivity. Qed.

Lemma show_txs_loop_prefix (printer : RowPrinter) (title : string)
  (txs : list json) :
  exists ls,
    (show_txs_loop printer title txs).1 = map Data ls
    /\ (forall i l, ls !! i = Some l ->
          exists tx t, txs !! i = Some tx
                       /\ titles title (length txs) !! i = Some t
                       /\ row_line printer t tx = Ok l)
    /\ match (show_txs_loop printer title txs).2 with
       | Ok _ => length ls = length txs
       | Raise e =>
           exists tx t, txs !! length ls = Some tx
                        /\ titles title (length txs) !! length ls = Some t
                        /\ row_line printer t tx = Raise e
       end.
Proof.
  revert title. induction txs as [|tx txs IH]; intros title.
  - exists []. simpl. split; [reflexivity|]. split; [|reflexivity].
    intros i l Hi. destruct i; discriminate.
  - cbn [show_txs_loop]. unfold print_data, mbind, io_bind, lift, emit.
    destruct (row_line printer title tx) as [line|e] eqn:Er.
    + destruct (IH EmptyString) as [ls [Ho [Hrows Hend]]].
      destruct (show_txs_loop printer EmptyString txs) as [o r].
      simpl in Ho, Hend. subst o. exists (line :: ls).
      split; [reflexivity|]. split.
      * intros [|i] l Hi; simpl in Hi.
        -- injection Hi as <-. exists tx, title. repeat split. exact Er.
        -- destruct (Hrows i l Hi) as (tx' & t & Htx & Ht & Hl).
           exists tx', t. split; [exact Htx|]. split; [|exact Hl].
           cbn [length]. now rewrite titles_lookup_S.
      * cbn [snd]. destruct r as [u|e].
        -- simpl. now rewrite Hend.
        -- destruct Hend as (tx' & t & Htx & Ht & Hl).
           exists tx', t. split; [exact Htx|]. split; [|exact Hl].
           cbn [length]. now rewrite titles_lookup_S.
    + exists []. split; [reflexivity|]. split.
      * intros i l Hi. destruct i; discriminate.
      * cbn [snd]. exists tx, title. repeat split. exact Er.
Qed.

(** X13: [show_txs] prints rows only; the i-th row printed is the
    rendering of the i-th transaction in print order, under the height
    label for the first and the empty label for the others.  When it
    returns, every transaction has its row; when it raises, the rows
    printed are exactly those before the first transaction that cannot be
    rendered, and the exception is the one of that rendering. *)
Theorem show_txs_partial (printer : RowPrinter) (h : Z) (txs : list json)
  (reverse : bool) :
  let ordered := if reverse then rev txs else txs in
  let labels := titles (py_str_int h) (length txs) in
  exists ls,
    (show_txs printer h txs reverse).1 = map Data ls
    /\ (forall i l, ls !! i = Some l ->
          exists tx t, ordered !! i = Some tx /\ labels !! i = Some t
                       /\ row_line printer t tx = Ok l)
    /\ match (show_txs printer h txs reverse).2 with
       | Ok _ => length ls = length txs
       | Raise e =>
           (length ls < length txs)%nat
           /\ exists tx t, ordered !! length ls = Some tx
                           /\ labels !! length ls = Some t
                           /\ row_line printer t tx = Raise e
       end.
Proof.
  cbn zeta. unfold show_txs.
  assert (Hlen : length (if reverse then rev txs else txs) = length txs)
    by (destruct reverse; [apply length_rev|reflexivity]).
  destruct (show_txs_loop_prefix printer (py_str_int h)
              (if reverse then rev txs else txs)) as [ls [Ho [Hrows Hend]]].
  rewrite Hlen in *. exists ls. split; [exact Ho|]. split; [exact Hrows|].
  destruct (show_txs_loop _ _ _).2 as [u|e]; [exact Hend|].
  split; [|exact Hend].
  destruct Hend as (tx & t & Htx & _). rewrite <- Hlen.
  eapply lookup_lt_Some, Htx.
Qed.

(** X14: a fetch that fails ends the run with its exception; the status
    line of that fetch is the last thing printed. *)
Theorem scan_fetch_failure (fwd : bool) (f : tx_pred) (printer : RowPrinter)
  (st : loop_state) (e : exn) (fuel : nat) :
  get_block (id st) = Raise e ->
  scan_loop (S fuel) fwd f printer st = ([Status (id st)], Raise e).
Proof.
  intros Hg. rewrite scan_loop_S, scan_iter_eq, Hg. reflexivity.
Qed.

(** X15: every turn prints exactly one status line: a run of [fuel] turns
    prints [fuel] of them when it does not raise, and otherwise at least
    one and at most [fuel]. *)
Theorem scan_loop_status_lines (fuel : nat) (fwd : bool) (f : tx_pred)
  (printer : RowPrinter) (st : loop_state) :
  let run := scan_loop fuel fwd f printer st in
  (length (fetched run.1) <= fuel)%nat
  /\ if is_ok run.2 then length (fetched run.1) = fuel
     else (0 < length (fetched run.1))%nat.
Proof.
  revert st. induction fuel as [|fuel IH]; intros st; [simpl; auto|].
  cbn zeta. rewrite scan_loop_S.
  destruct (scan_iter_shape fwd f printer st) as [ls [Hf _]].
  destruct (scan_iter fwd f printer st) as [o1 [st1|e]]; cbn [fst snd] in *.
  - destruct (IH st1) as [Hle Hok]. rewrite fetched_app, length_app, Hf.
    simpl. split; [lia|].
    destruct (is_ok (scan_loop fuel fwd f printer st1).2); lia.
  - rewrite Hf. simpl. split; lia.
Qed.

(** X16: the next cursor is computed from the height the fetched block
    reports, whatever the cursor was (a tag such as "latest" included),
    and the header flag, once set, stays set. *)
Theorem cursor_follows_block (fwd : bool) (f : tx_pred)
  (printer : RowPrinter) (st st' : loop_state) :
  (scan_iter fwd f printer st).2 = Ok st' ->
  exists blk,
    get_block (id st) = Ok blk
    /\ id st' = BHeight (if fwd then height blk + 1 else height blk - 1)
    /\ (sep_print st = true -> sep_print st' = true).
Proof.
  intros Hst. destruct (scan_iter_next fwd f printer st st' Hst)
    as [blk [Hb Hid]].
  exists blk. split; [exact Hb|]. split; [exact Hid|].
  intros Hsep. destruct (scan_iter_shape fwd f printer st) as [ls [_ Hs]].
  destruct Hs as [[_ Hs]|[_ Hs]]; rewrite (Hs st' Hst); auto.
Qed.
End option_facts.

(** ** The properties on concrete inputs *)

Lemma table_frame_aligned_witness :
  String.length "|   Height | Type     | Method               |"
  = String.length
      (sep_str [@TX_HEIGHT_COLUMN;
                mkColumn (fun title tx =>
                  dict_get tx (Key "dataType") (JStr "transfer")) 8 None "Type";
                mkColumn (fun title tx =>
                  v ← dict_get tx (Keys ["data"; "method"]) (JStr "-");
                  demo_shorten v 20 None) 20 None "Method"])
  /\ (String.length "|   Height | Type     | Method               |"
      <= String.length
           "|        9 | call     | transfer             |")%nat
  /\ exists cells,
       "|        9 | call     | transfer             |" = table_line cells
       /\ length cells = 3%nat.
Proof.
  destruct (@table_frame_aligned demo_util
              {| columns := ["type,method"]; block_arg := "10";
                 forward := false; nobase := false; receivers := [];
                 senders := []; addresses := []; methods := [];
                 data_types := [] |}
              _ "9" (demo_tx "0xb" (Some "call") "transfer") _
              eq_refl eq_refl) as (Hs & Hl & vs & cells & Hv & Hn & Hc & Hp).
  split; [exact Hs|]. split; [exact Hl|].
  exists cells. split; [exact Hc|].
  apply Forall2_length in Hp. rewrite <- Hp, length_zip, Hn. reflexivity.
Defined.

Lemma row_aligned_when_fits_witness :
  exists line,
    @row_line
      (new_RowPrinter
         [TX_HEIGHT_COLUMN;
          mkColumn (fun title tx =>
            dict_get tx (Key "dataType") (JStr "transfer")) 8 None "Type"])
      "9" (demo_tx "0xb" (Some "call") "transfer") = Ok line
    /\ String.length line = String.length "|   Height | Type     |".
Proof.
  refine (@row_aligned_when_fits demo_util
            {| columns := ["type"]; block_arg := "10"; forward := false;
               nobase := false; receivers := []; senders := [];
               addresses := []; methods := []; data_types := [] |}
            _ "9" (demo_tx "0xb" (Some "call") "transfer")
            [JStr "9"; JStr "call"] eq_refl eq_refl _).
  repeat constructor; eexists; (split; [reflexivity|simpl; lia]).
Defined.

Lemma expand_comma_is_split_of_join_witness :
  expand_comma ["hx1,hx2"; "hx3"] = split_comma "hx1,hx2,hx3".
Proof.
  exact (expand_comma_is_split_of_join ["hx1,hx2"; "hx3"]
           ltac:(discriminate)).
Defined.

Lemma dict_get_only_TypeError_witness :
  dict_get (JDict (<["data" := JStr "a method"]> ∅))
    (Keys ["data"; "method"]) (JStr "-") = Raise TypeError
  /\ TypeError = TypeError.
Proof.
  split; [reflexivity|].
  exact (dict_get_only_TypeError
           (JDict (<["data" := JStr "a method"]> ∅))
           (Keys ["data"; "method"]) (JStr "-") TypeError eq_refl).
Defined.

Lemma filters_on_plain_transfer_witness :
  nobase_filter (JDict (<["txHash" := JStr "0xd"]> ∅)) = Ok true
  /\ method_filter ["transfer"] (JDict (<["txHash" := JStr "0xd"]> ∅))
     = Ok false
  /\ data_type_filter ["transfer"; "call"]
       (JDict (<["txHash" := JStr "0xd"]> ∅))
     = Ok (bool_decide ("transfer" ∈ ["transfer"; "call"])).
Proof.
  exact (filters_on_plain_transfer ["transfer"] ["transfer"; "call"]
           (<["txHash" := JStr "0xd"]> ∅) eq_refl eq_refl).
Defined.

Lemma build_filters_length_witness :
  length [nobase_filter; to_filter ["hx1"; "hx2"]; method_filter ["transfer"]]
  = 3%nat.
Proof.
  exact (@build_filters_length demo_util
           {| columns := []; block_arg := "latest"; forward := false;
              nobase := true; receivers := ["hx1,hx2"]; senders := [];
              addresses := []; methods := ["transfer"]; data_types := [] |}
           _ eq_refl).
Defined.

Lemma scan_rejected_address_witness :
  exists e',
    @scan strict_util demo_service 3
      {| columns := []; block_arg := "10"; forward := false;
         nobase := false; receivers := []; senders := ["hx1,bob"];
         addresses := []; methods := []; data_types := [] |}
    = ([], Raise e').
Proof.
  refine (@scan_rejected_address strict_util demo_service
            {| columns := []; block_arg := "10"; forward := false;
               nobase := false; receivers := []; senders := ["hx1,bob"];
               addresses := []; methods := []; data_types := [] |}
            "bob" ValueError 3 _ eq_refl).
  right. left. apply elem_of_cons. right. apply elem_of_cons. now left.
Defined.

Lemma build_printer_known_witness :
  exists cols,
    @build_printer demo_util
      {| columns := ["to,value"; "id"]; block_arg := "10"; forward := false;
         nobase := false; receivers := []; senders := []; addresses := [];
         methods := []; data_types := [] |}
    = Ok (new_RowPrinter (TX_HEIGHT_COLUMN :: cols))
    /\ Forall2 (fun nm c => @TX_COLUMNS demo_util !! nm = Some c)
         ["to"; "value"; "id"] cols.
Proof.
  refine (@build_printer_known demo_util
            {| columns := ["to,value"; "id"]; block_arg := "10";
               forward := false; nobase := false; receivers := [];
               senders := []; addresses := []; methods := [];
               data_types := [] |} _).
  unfold KNOWN_COLUMNS. repeat constructor; set_solver.
Defined.

Lemma scan_fetch_failure_witness :
  @scan_loop genesis_service 3 false (merge_filters [])
    (new_RowPrinter [TX_HEIGHT_COLUMN])
    {| id := BHeight (-1); sep_print := false |}
  = ([Status (BHeight (-1))], Raise ExternalError).
Proof.
  exact (@scan_fetch_failure genesis_service false
           (merge_filters []) (new_RowPrinter [TX_HEIGHT_COLUMN])
           {| id := BHeight (-1); sep_print := false |} ExternalError 2
           eq_refl).
Defined.

Lemma cursor_follows_block_witness :
  exists blk,
    @get_block demo_service (BTag "latest") = Ok blk
    /\ BHeight 99 = BHeight (height blk - 1)
    /\ (false = true -> false = true).
Proof.
  exact (@cursor_follows_block demo_service false
           (merge_filters []) (new_RowPrinter [TX_HEIGHT_COLUMN])
           {| id := BTag "latest"; sep_print := false |}
           {| id := BHeight 99; sep_print := false |} eq_refl).
Defined.

Lemma py_filter_ok_witness :
  exists e,
    py_filter (method_filter ["transfer"])
      [demo_tx "0xb" (Some "call") "transfer";
       JDict (<["txHash" := JStr "0xe"]> (<["data" := JInt 3]> ∅))]
    = Raise e
    /\ @scan_iter odd_service false (method_filter ["transfer"])
         (new_RowPrinter [TX_HEIGHT_COLUMN])
         {| id := BHeight 5; sep_print := false |}
       = ([Status (BHeight 5)], Raise e).
Proof.
  exact (proj2 (@py_filter_ok odd_service false (method_filter ["transfer"])
                  (new_RowPrinter [TX_HEIGHT_COLUMN])
                  {| id := BHeight 5; sep_print := false |} _ [] eq_refl)
           eq_refl).
Defined.

Lemma show_txs_partial_witness :
  exists ls,
    (show_txs
       (new_RowPrinter
          [TX_HEIGHT_COLUMN;
           mkColumn (fun title tx => py_getitem tx "txHash") 4 None "ID"])
       7 [demo_tx "0xa" None "x"; JDict ∅; demo_tx "0xc" None "y"]
       false).1 = map Data ls
    /\ ls = ["|        7 | 0xa  |"].
Proof.
  destruct (show_txs_partial
              (new_RowPrinter
                 [TX_HEIGHT_COLUMN;
                  mkColumn (fun title tx => py_getitem tx "txHash") 4 None
                    "ID"])
              7 [demo_tx "0xa" None "x"; JDict ∅; demo_tx "0xc" None "y"]
              false) as (ls & Ho & _ & _).
  exists ls. split; [exact Ho|].
  vm_compute in Ho. destruct ls as [|l [|l' ls]]; try discriminate Ho.
  now injection Ho as <-.
Defined.

End txscan_more.

Module status_more.
Import status status_facts.

Section build_facts.
Context `{Deps}.

Lemma build_step_ok (info_map : gmap string node_info) (st : build_state)
  (e : prep_entry) :
  is_ok (build_step info_map st e) = entry_ok info_map e.
Proof.
  unfold build_step, entry_ok.
  destruct (info_map !! resolve_addr e) as [info|].
  - destruct (info_name info), (info_ip info); try reflexivity.
    unfold mbind, exc_bind.
    destruct (grade_to_type (grade e)); [|reflexivity].
    destruct (py_int0 (power e)); reflexivity.
  - destruct (bool_decide (grade e = "0x1")); [reflexivity|].
    unfold item_append. now destruct (item st).
Qed.

Lemma build_step_item (info_map : gmap string node_info)
  (st st' : build_state) (e : prep_entry) :
  build_step info_map st e = Ok st' ->
  exists it, items st' = items st ++ [it] /\ item_of info_map e it.
Proof.
  unfold build_step, item_of.
  destruct (info_map !! resolve_addr e) as [info|] eqn:Ei.
  - destruct (info_name info) as [nm|] eqn:En;
      [destruct (info_ip info) as [ip|] eqn:Ep|].
    + unfold mbind, exc_bind.
      destruct (grade_to_type (grade e)) as [ty|] eqn:Et; [|discriminate].
      destruct (py_int0 (power e)) as [pw|] eqn:Ew; [|discriminate].
      injection 1 as <-. eexists. split; [reflexivity|].
      right. exists info, ip, ty, pw. auto.
    + injection 1 as <-. eexists. split; [reflexivity|]. left. auto.
    + injection 1 as <-. eexists. split; [reflexivity|]. left. auto.
  - destruct (bool_decide (grade e = "0x1")) eqn:Eg.
    + injection 1 as <-. eexists. split; [reflexivity|]. left.
      split; [reflexivity|]. now apply bool_decide_eq_true_1 in Eg.
    + unfold item_append. destruct (item st); discriminate.
Qed.

Lemma build_loop_items (info_map : gmap string node_info)
  (roster : list prep_entry) (st st' : build_state) :
  build_loop info_map st roster = Ok st' ->
  exists its, items st' = items st ++ its
              /\ Forall2 (item_of info_map) roster its.
Proof.
  revert st. induction roster as [|e roster IH]; intros st Hb.
  - injection Hb as <-. exists []. split; [now rewrite app_nil_r|constructor].
  - simpl in Hb. unfold mbind, exc_bind in Hb.
    destruct (build_step info_map st e) as [st1|] eqn:E1; [|discriminate].
    destruct (build_step_item _ _ _ _ E1) as [it [Hi Hof]].
    destruct (IH st1 Hb) as [its [Hits Hall]].
    exists (it :: its). split; [|now constructor].
    rewrite Hits, Hi, <- app_assoc. reflexivity.
Qed.

Lemma build_items_item_of (info_map : gmap string node_info)
  (roster : list prep_entry) (its : list PRep) :
  build_items info_map roster = Ok its ->
  Forall2 (item_of info_map) roster its.
Proof.
  unfold build_items, mbind, exc_bind. intros Hb.
  destruct (build_loop info_map _ roster) as [st|] eqn:El; [|discriminate].
  injection Hb as <-.
  destruct (build_loop_items _ _ _ _ El) as [its [Hi Hall]].
  simpl in Hi. now subst.
Qed.

(** X17: the first loop makes exactly one item per roster entry, in roster
    order: a placeholder, or the full record carrying the entry's name,
    the IP of the metadata file and the two queries to that IP. *)
Theorem build_items_positions (info_map : gmap string node_info)
  (roster : list prep_entry) (its : list PRep) :
  build_items info_map roster = Ok its ->
  Forall2 (item_of info_map) roster its /\ length its = length roster.
Proof.
  intros Hb. pose proof (build_items_item_of _ _ _ Hb) as Hall.
  split; [exact Hall|].
  symmetry. eapply Forall2_length, Hall.
Qed.

(** X18: the first loop gets through a roster exactly when every entry is
    one it can handle: absent from the metadata file only with grade
    "0x1", and, when the file has both its name and its IP, of a grade
    the table knows and a power that parses. *)
Theorem build_items_ok (info_map : gmap string node_info)
  (roster : list prep_entry) :
  is_ok (build_items info_map roster) = forallb (entry_ok info_map) roster.
Proof.
  unfold build_items.
  assert (Hl : forall st,
             is_ok (build_loop info_map st roster)
             = forallb (entry_ok info_map) roster).
  { induction roster as [|e roster IH]; intros st; [reflexivity|].
    simpl. rewrite <- build_step_ok with (st := st).
    unfold mbind, exc_bind.
    destruct (build_step info_map st e) as [st1|]; [apply IH|reflexivity]. }
  specialize (Hl {| items := []; item := None |}).
  unfold mbind, exc_bind.
  destruct (build_loop info_map _ roster); exact Hl.
Qed.
End build_facts.

Section display_facts.
Context `{Deps}.

Lemma version_cell_counters (vc : option string) (d : prep_dict)
  (v : string) (c c1 : counters) (vf : string) (va : list arg) :
  version_cell vc d v c = Ok (vf, va, c1) ->
  idx c1 = idx c /\ all_nodes c1 = all_nodes c
  /\ late_nodes c1 = late_nodes c
  /\ (updated_main c <= updated_main c1 <= updated_main c + 1)
  /\ (updated_nodes c <= updated_nodes c1 <= updated_nodes c + 1)
  /\ (updated_in22 c <= updated_in22 c1 <= updated_in22 c + 1)
  /\ (main_nodes c <= main_nodes c1 <= main_nodes c + 1)
  /\ updated_main c1 - updated_main c <= updated_nodes c1 - updated_nodes c
  /\ updated_main c1 - updated_main c <= main_nodes c1 - main_nodes c
  /\ updated_in22 c1 - updated_in22 c <= updated_nodes c1 - updated_nodes c
  /\ (vf, va) ∈ [(RAW_VERSION_FORMAT, [AStr v]);
                 (LOWER_VERSION_FORMAT, [AStr v]);
                 (OK_VERSION_FORMAT, [AStr "[OK]"])].
Proof.
  unfold version_cell. destruct vc as [w|].
  - unfold mbind, exc_bind.
    destruct (is_lower_version (Some v) (Some w)) as [[|]|e]; [| |discriminate];
      injection 1 as <- <- <-; simpl;
      destruct (is_main d), (idx c <? 22);
      repeat split; try lia; set_solver.
  - injection 1 as <- <- <-. repeat split; try lia; set_solver.
Qed.

Lemma height_cell_cases (top : Z) (ch : chain_t) :
  (exists h s, c_height ch = Some h /\ c_state ch = Some s
               /\ height_cell top ch =
                  if h <? top - 2
                  then (LATE_FORMAT, [AInt h; AStr s; AInt (h - top)], true)
                  else (PLAIN_FORMAT, [AInt h; AStr s], false))
  \/ ((c_height ch = None \/ c_state ch = None)
      /\ height_cell top ch = (EmptyString, [], false)).
Proof.
  unfold height_cell. destruct (c_height ch) as [h|], (c_state ch) as [s|];
    eauto 10.
Qed.

(** What one turn of the third loop does when it does not raise. *)
Lemma display_item_ok (top : Z) (vc : option string) (c c' : counters)
  (p : polled) (o : list line) :
  display_item top vc c p = (o, Ok c') ->
  idx c' = idx c + 1
  /\ all_nodes c' = all_nodes c + (if reachable_row p then 1 else 0)
  /\ late_nodes c' = late_nodes c + (if late_row top p then 1 else 0)
  /\ (counters_ok c -> counters_ok c')
  /\ map first_arg o = (if shown p then [Some (AInt (idx c))] else []).
Proof.
  unfold display_item, reachable_row, late_row, shown.
  destruct (prep (p_item p)) as [d|].
  2:{ injection 1 as <- <-. simpl.
      repeat split; try reflexivity; unfold counters_ok in *; simpl in *; lia. }
  destruct (p_ip d) as [ip|]; [|discriminate].
  unfold mbind, io_bind, lift, print. cbn iota. cbn zeta.
  destruct (chain p) as [ch|].
  2:{ cbn. injection 1 as <- <-. cbn.
      repeat split; try reflexivity; unfold counters_ok in *; simpl in *; lia. }
  unfold exc_bind.
  destruct (version_cell vc d (version p) _) as [[[vf va] c1]|e] eqn:Ev;
    [|discriminate].
  apply version_cell_counters in Ev. simpl in Ev.
  destruct Ev as (Hi & Ha & Hl & Hum & Hun & Hu22 & Hm & H1 & H2 & H3 & _).
  destruct (height_cell_cases top ch) as [(h & s & Hh & Hs & Hc)|[Hn Hc]];
    rewrite Hc.
  - destruct ch as [ch_h ch_s]. simpl in Hh, Hs. subst ch_h ch_s.
    destruct (h <? top - 2); cbn; injection 1 as <- <-; cbn;
      (repeat split; try reflexivity; unfold counters_ok in *; simpl in *;
       lia).
  - assert (Hlate : match ch with
                    | {| c_height := Some h; c_state := Some _ |} =>
                        h <? top - 2
                    | _ => false
                    end = false).
    { destruct ch as [[h|] [s|]]; simpl in *; destruct Hn; congruence. }
    rewrite Hlate. cbn. injection 1 as <- <-. cbn.
    repeat split; try reflexivity; unfold counters_ok in *; simpl in *; lia.
Qed.
End display_facts.

Section loop_facts.
Context `{Deps}.

Lemma display_loop_cons (top : Z) (vc : option string) (c : counters)
  (p : polled) (ps : list polled) :
  display_loop top vc c (p :: ps) =
  match display_item top vc c p with
  | (o, Ok c1) =>
      (o ++ (display_loop top vc c1 ps).1, (display_loop top vc c1 ps).2)
  | (o, Raise e) => (o, Raise e)
  end.
Proof.
  simpl. unfold mbind, io_bind.
  destruct (display_item top vc c p) as [o [c1|e]]; [|reflexivity].
  now destruct (display_loop top vc c1 ps).
Qed.

Lemma count_cons {A} (f : A -> bool) (x : A) (l : list A) :
  Z.of_nat (length (List.filter f (x :: l)))
  = (if f x then 1 else 0) + Z.of_nat (length (List.filter f l)).
Proof. simpl. destruct (f x); simpl; lia. Qed.

(** X19: the index runs over all items, placeholders included, and each
    printed line carries the roster position of its item. *)
Theorem display_rows_indexed (top : Z) (vc : option string)
  (c c' : counters) (ps : list polled) (out : list line) :
  display_loop top vc c ps = (out, Ok c') ->
  idx c' = idx c + Z.of_nat (length ps)
  /\ map first_arg out
     = map (fun i => Some (AInt i)) (shown_indices (idx c) ps)
  /\ length out = length (List.filter shown ps).
Proof.
  revert c out. induction ps as [|p ps IH]; intros c out Hd.
  - injection Hd as <- <-. simpl. repeat split. lia.
  - rewrite display_loop_cons in Hd.
    destruct (display_item top vc c p) as [o [c1|e]] eqn:Ei; [|discriminate].
    destruct (display_loop top vc c1 ps) as [o2 r2] eqn:El.
    simpl in Hd. injection Hd as <- ->.
    destruct (display_item_ok _ _ _ _ _ _ Ei) as (Hi & _ & _ & _ & Hf).
    destruct (IH c1 o2 El) as (Hi2 & Hf2 & Hl2).
    rewrite Hi in Hi2, Hf2. split; [simpl length; lia|].
    rewrite map_app, Hf, Hf2, length_app. simpl.
    assert (Hlo : length o = if shown p then 1%nat else 0%nat).
    { rewrite <- (length_map first_arg), Hf. now destruct (shown p). }
    rewrite Hlo, Hl2. destruct (shown p); split; reflexivity.
Qed.

(** X20: [all_nodes] counts the shown items that are not marked
    unreachable, and [late_nodes] those of them whose snapshot has a
    height and a state and lies more than 2 below the top height. *)
Theorem display_counts (top : Z) (vc : option string) (c c' : counters)
  (ps : list polled) (out : list line) :
  display_loop top vc c ps = (out, Ok c') ->
  all_nodes c' = all_nodes c
                 + Z.of_nat (length (List.filter reachable_row ps))
  /\ late_nodes c' = late_nodes c
                     + Z.of_nat (length (List.filter (late_row top) ps)).
Proof.
  revert c out. induction ps as [|p ps IH]; intros c out Hd.
  - injection Hd as <- <-. simpl. lia.
  - rewrite display_loop_cons in Hd.
    destruct (display_item top vc c p) as [o [c1|e]] eqn:Ei; [|discriminate].
    destruct (display_loop top vc c1 ps) as [o2 r2] eqn:El.
    simpl in Hd. injection Hd as <- ->.
    destruct (display_item_ok _ _ _ _ _ _ Ei) as (_ & Ha & Hl & _).
    destruct (IH c1 o2 El) as (Ha2 & Hl2).
    rewrite !count_cons. lia.
Qed.

(** X21: the counters of the summary stay consistent: no more late or
    updated nodes than reachable ones, and no more updated main nodes
    than updated nodes or main nodes. *)
Theorem display_counters_consistent (top : Z) (vc : option string)
  (c' : counters) (ps : list polled) (out : list line) :
  display_loop top vc counters0 ps = (out, Ok c') -> counters_ok c'.
Proof.
  assert (Hgen : forall c, counters_ok c ->
                           display_loop top vc c ps = (out, Ok c') ->
                           counters_ok c').
  { revert out. induction ps as [|p ps IH]; intros out c Hc Hd.
    - now injection Hd as <- <-.
    - rewrite display_loop_cons in Hd.
      destruct (display_item top vc c p) as [o [c1|e]] eqn:Ei;
        [|discriminate].
      destruct (display_loop top vc c1 ps) as [o2 r2] eqn:El.
      simpl in Hd. injection Hd as <- ->.
      destruct (display_item_ok _ _ _ _ _ _ Ei) as (_ & _ & _ & Hok & _).
      eapply IH; [apply Hok, Hc|exact El]. }
  apply Hgen. unfold counters_ok, counters0. simpl. lia.
Qed.

(** Every line of a turn of the third loop fits its format. *)
Lemma display_item_lines (top : Z) (vc : option string) (c : counters)
  (p : polled) :
  Forall (fun l => line_ok l = true) (display_item top vc c p).1.
Proof.
  unfold display_item.
  destruct (prep (p_item p)) as [d|]; [|constructor].
  destruct (p_ip d) as [ip|]; [|constructor].
  unfold mbind, io_bind, lift, print. cbn iota. cbn zeta.
  assert (Hbase : base_format d = MAIN_FORMAT \/ base_format d = STATUS_FORMAT
                  \/ base_format d = NOPOWER_FORMAT).
  { unfold base_format. destruct (0 <? p_power d), (is_main d); auto. }
  destruct (chain p) as [ch|].
  2:{ cbn. constructor; [|constructor].
      destruct Hbase as [-> | [-> | ->]]; reflexivity. }
  unfold exc_bind.
  destruct (version_cell vc d (version p) _) as [[[vf va] c1]|e] eqn:Ev;
    [|constructor].
  apply version_cell_counters in Ev.
  destruct Ev as (_ & _ & _ & _ & _ & _ & _ & _ & _ & _ & Hv).
  destruct (height_cell_cases top ch) as [(h & s & _ & _ & Hc)|[_ Hc]];
    rewrite Hc; [destruct (h <? top - 2)|]; cbn;
    (constructor; [|constructor]);
    repeat (apply elem_of_cons in Hv as [Hv|Hv];
            [injection Hv as -> ->;
             destruct Hbase as [-> | [-> | ->]]; reflexivity|]);
    inversion Hv.
Qed.

Lemma display_loop_lines (top : Z) (vc : option string) (c : counters)
  (ps : list polled) :
  Forall (fun l => line_ok l = true) (display_loop top vc c ps).1.
Proof.
  revert c. induction ps as [|p ps IH]; intros c; [constructor|].
  rewrite display_loop_cons.
  pose proof (display_item_lines top vc c p) as Hi.
  destruct (display_item top vc c p) as [o [c1|e]]; [|exact Hi].
  simpl. apply Forall_app. split; [exact Hi|apply IH].
Qed.

Lemma summary_lines (now next_term top : Z) (vc : option string)
  (c : counters) :
  Forall (fun l => line_ok l = true) (summary now next_term top vc c).1.
Proof.
  unfold summary, mbind, io_bind, lift, print.
  destruct (time_next now next_term top) as [t|e]; [|constructor].
  destruct vc as [v|]; cbn; (constructor; [reflexivity|constructor]).
Qed.

(** X22: every line the command prints fits its format: as many arguments
    as conversions, and an integer wherever the format says [%d]. *)
Theorem show_status_lines_fit (inp : run_input) :
  Forall (fun l => line_ok l = true) (show_status inp).1.
Proof.
  unfold show_status, mbind, io_bind, lift.
  destruct (py_int0 (nextPRepTerm inp)) as [nt|e]; [|constructor].
  destruct (build_items (prep_info inp) (preps inp)) as [its|e];
    [|constructor].
  cbn iota. cbn zeta. destruct (aggregate its) as [a ps].
  pose proof (display_loop_lines (top_height a)
                match version_opt inp with
                | Some v => Some v
                | None => last_version a
                end counters0 ps) as Hd.
  destruct (display_loop _ _ _ _) as [rows [c|e]]; [|exact Hd].
  pose proof (summary_lines (now inp) nt (top_height a)
                match version_opt inp with
                | Some v => Some v
                | None => last_version a
                end c) as Hs.
  destruct (summary _ _ _ _ _) as [o r]. simpl in *.
  apply Forall_app. split; assumption.
Qed.
End loop_facts.

Section run_facts.
Context `{Deps}.



Lemma poll_item_last_from (a : agg) (it : PRep) (v : string) :
  last_version (poll_item a it).1 = Some v ->
  last_version a = Some v
  \/ (populated (poll_item a it).2 = true /\ version (poll_item a it).2 = v).
Proof.
  unfold poll_item, poll_try, populated.
  destruct (futures it) as [[[[[h|] s]|e1] [w|e2]]|]; simpl; auto;
    try (destruct (top_height a <? h); simpl; auto);
    destruct (is_lower_version _ _) as [[|]|e]; simpl; auto;
    injection 1 as ->; auto.
Qed.

(** X24: the last version is never made up: when there is one, it is the
    version a fully populated node reported. *)
Theorem last_version_reported (its : list PRep) (v : string) :
  last_version (aggregate its).1 = Some v ->
  exists p, p ∈ (aggregate its).2 /\ populated p = true /\ version p = v.
Proof.
  unfold aggregate.
  assert (Hgen : forall a,
             last_version (aggregate_loop a its).1 = Some v ->
             last_version a = Some v
             \/ exists p, p ∈ (aggregate_loop a its).2
                          /\ populated p = true /\ version p = v).
  { induction its as [|it its IH]; intros a Hl; [now left|].
    rewrite aggregate_loop_cons in *. cbn [fst snd] in *.
    destruct (IH _ Hl) as [Ha|(p & Hin & Hp & Hv)].
    - destruct (poll_item_last_from a it v Ha) as [Ha0|[Hp Hv]];
        [now left|].
      right. eexists. split; [apply elem_of_cons; now left|auto].
    - right. exists p. split; [apply elem_of_cons; now right|auto]. }
  intros Hl. destruct (Hgen _ Hl) as [Ha|Hp]; [discriminate|exact Hp].
Qed.

(** X25: the estimate succeeds exactly in the range of [timedelta] and
    [datetime], is then the exact sum, and fails with OverflowError only;
    it is not clamped, so a top height beyond the next term gives a time
    before [now]. *)
Theorem time_next_in_range (now next_term top t : Z) :
  (time_next now next_term top = Ok t <->
     t = now + (next_term - top) * 2 * 1000000
     /\ Z.abs (((next_term - top) * 2) `div` DAY_SECONDS) <= MAX_DELTA_DAYS
     /\ 0 <= t < datetime_limit)
  /\ (forall e, time_next now next_term top = Raise e -> e = OverflowError)
  /\ (time_next now next_term top = Ok t -> next_term < top -> t < now).
Proof.
  unfold time_next, timedelta_seconds, datetime_add, datetime_valid,
    mbind, exc_bind.
  destruct (Z.leb_spec (Z.abs (((next_term - top) * 2) `div` DAY_SECONDS))
              MAX_DELTA_DAYS) as [Hd|Hd].
  - destruct (Z.leb_spec 0 (now + (next_term - top) * 2 * 1000000)) as [H0|H0];
      destruct (Z.ltb_spec (now + (next_term - top) * 2 * 1000000)
                  datetime_limit) as [H1|H1]; simpl;
      (split; [split; [intros Ht; try discriminate; injection Ht as <-; lia
                      |intros (-> & _ & Hr); try reflexivity; lia]
              |split; [intros e He; try discriminate; now injection He as <-
                      |intros Ht Hlt; try discriminate;
                       injection Ht as <-; lia]]).
  - split; [split; [discriminate|lia]|].
    split; [intros e He; now injection He as <-|discriminate].
Qed.
End run_facts.

(** ** The properties on concrete inputs *)

Lemma build_items_positions_witness :
  Forall2 (@item_of demo_deps demo_prep_info)
    [demo_entry "hx01" "0x0" "alpha"; demo_entry "hx09" "0x1" "ghost"]
    [{| prep := Some {| p_name := "alpha"; p_ip := Some "10.0.0.1";
                        p_type := "Main"; p_power := 16 |};
        futures := Some (demo_get_chain "10.0.0.1",
                         demo_get_version "10.0.0.1") |};
     {| prep := None; futures := None |}]
  /\ length [{| prep := Some {| p_name := "alpha"; p_ip := Some "10.0.0.1";
                                p_type := "Main"; p_power := 16 |};
                futures := Some (demo_get_chain "10.0.0.1",
                                 demo_get_version "10.0.0.1") |};
             {| prep := None; futures := None |}] = 2%nat.
Proof.
  exact (@build_items_positions demo_deps demo_prep_info
           [demo_entry "hx01" "0x0" "alpha"; demo_entry "hx09" "0x1" "ghost"]
           _ eq_refl).
Defined.

Lemma demo_display :
  @display_loop demo_deps 120 None counters0 demo_polled
  = (demo_lines, Ok demo_counters).
Proof. vm_compute. reflexivity. Qed.

Lemma display_rows_indexed_witness :
  idx demo_counters = 5
  /\ map first_arg demo_lines
     = [Some (AInt 0); Some (AInt 1); Some (AInt 3); Some (AInt 4)]
  /\ length demo_lines = 4%nat.
Proof.
  exact (@display_rows_indexed demo_deps 120 None counters0 demo_counters
           demo_polled demo_lines demo_display).
Defined.

Lemma display_counts_witness :
  all_nodes demo_counters = 3 /\ late_nodes demo_counters = 3.
Proof.
  exact (@display_counts demo_deps 120 None counters0 demo_counters
           demo_polled demo_lines demo_display).
Defined.

Lemma display_counters_consistent_witness : counters_ok demo_counters.
Proof.
  exact (@display_counters_consistent demo_deps 120 None demo_counters
           demo_polled demo_lines demo_display).
Defined.


Lemma last_version_reported_witness :
  exists p, p ∈ demo_polled /\ @populated demo_deps p = true
            /\ version p = "1.3.1".
Proof.
  exact (@last_version_reported demo_deps demo_items "1.3.1" eq_refl).
Defined.

Lemma time_next_in_range_witness :
  time_next 5000000 10 11 = Ok 3000000 /\ 3000000 < 5000000.
Proof.
  split; [reflexivity|].
  refine (proj2 (proj2 (time_next_in_range 5000000 10 11 3000000)) eq_refl _).
  lia.
Defined.

End status_more.
